(** * DTF backend: the Dropbox storage gateway and its OAuth token manager

    A shallow embedding of [src/services/dropboxService.js] (class
    [DropboxService]) and of the parts of the JavaScript runtime and of
    the remote file store that its methods rely on.

    Modelling conventions.
    - JavaScript values are the JSON values plus [undefined]; numbers are
      integers ([Z]), so fractional numbers and the rounding of doubles
      beyond 2^53 are outside the model.  Strings are sequences of code
      units ([string], one [ascii] per unit).
    - An [async] method is a computation in the monad [M]: it reads and
      writes the [World] (the service object's fields, the remote store,
      the clock, the list of HTTP requests issued so far) and either
      resolves ([Ok]) or rejects ([Throw], carrying [error.message]).
      One method body runs at a time; interleavings of concurrent
      requests are not modelled.
    - [console.log], [console.warn] and [console.error] have no effect.
    - Runtime builtins whose text is irrelevant or too large to embed
      (JSON printing and parsing, date parsing and formatting, the HTML
      template text) are the fields of the class [Builtins]; module
      [Reference] gives an executable instance used in closed examples. *)

From Stdlib Require Import ZArith List String Ascii Bool Lia Permutation
  Sorted.
From stdpp Require Import base option list gmap strings pretty.

Set Default Proof Using "Type".
Set Warnings "-register-all".
Open Scope Z_scope.

(** ** Values *)

Inductive value : Type :=
| VUndef
| VNull
| VBool (b : bool)
| VNum (n : Z)
| VStr (s : string)
| VArr (xs : list value)
| VObj (kvs : list (string * value)).

(** The outcome of evaluating something that may throw; [Throw] carries
    the [message] of the JavaScript [Error]. *)
Inductive result (A : Type) : Type :=
| Ok (a : A)
| Throw (msg : string).
Arguments Ok {A} a.
Arguments Throw {A} msg.

(** [!!v] of JavaScript. *)
Definition truthy (v : value) : bool :=
  match v with
  | VUndef | VNull => false
  | VBool b => b
  | VNum n => negb (n =? 0)
  | VStr s => negb (String.eqb s "")
  | VArr _ | VObj _ => true
  end.

(** Own property lookup in an object literal (keys are unique in a
    JavaScript object; the first binding is the one that counts). *)
Fixpoint assoc (k : string) (kvs : list (string * value)) : option value :=
  match kvs with
  | [] => None
  | (k', v) :: rest => if String.eqb k k' then Some v else assoc k rest
  end.

(** [o[k] = v] on an object literal: an existing key keeps its position,
    a new key is appended. *)
Fixpoint set_key (k : string) (v : value) (kvs : list (string * value))
  : list (string * value) :=
  match kvs with
  | [] => [(k, v)]
  | (k', v') :: rest =>
      if String.eqb k k' then (k, v) :: rest else (k', v') :: set_key k v rest
  end.

(** [v.k] for the property names the service reads.  Reading a property
    of [undefined] or [null] throws a TypeError; arrays and strings have
    [length]; every other read of a missing property is [undefined]. *)
Definition get_prop (v : value) (k : string) : result value :=
  match v with
  | VUndef =>
      Throw ("Cannot read properties of undefined (reading '" +:+ k +:+ "')")
  | VNull =>
      Throw ("Cannot read properties of null (reading '" +:+ k +:+ "')")
  | VObj kvs => Ok (default VUndef (assoc k kvs))
  | VArr xs =>
      Ok (if String.eqb k "length" then VNum (Z.of_nat (List.length xs))
          else VUndef)
  | VStr s =>
      Ok (if String.eqb k "length" then VNum (Z.of_nat (String.length s))
          else VUndef)
  | VBool _ | VNum _ => Ok VUndef
  end.

(** [String(v)], as used by template literals. *)
Fixpoint ToString (v : value) : string :=
  match v with
  | VUndef => "undefined"
  | VNull => "null"
  | VBool true => "true"
  | VBool false => "false"
  | VNum n => pretty n
  | VStr s => s
  | VArr xs =>
      String.concat ","
        (List.map (fun x => match x with
                            | VUndef | VNull => ""
                            | _ => ToString x
                            end) xs)
  | VObj _ => "[object Object]"
  end.

(** [v.k] when the read cannot throw. *)
Definition prop (v : value) (k : string) : value :=
  match get_prop v k with
  | Ok x => x
  | Throw _ => VUndef
  end.

(** Neither [null] nor [undefined]: property reads do not throw. *)
Definition readable (v : value) : bool :=
  match v with
  | VUndef | VNull => false
  | _ => true
  end.

(** A value that JSON text can denote: no [undefined] inside. *)
Fixpoint is_json (v : value) : bool :=
  match v with
  | VUndef => false
  | VNull | VBool _ | VNum _ | VStr _ => true
  | VArr xs => forallb is_json xs
  | VObj kvs => forallb (fun kv => is_json kv.2) kvs
  end.

(** What is left of a value after [JSON.stringify]: a property bound to
    [undefined] is dropped, an [undefined] array element becomes [null]. *)
Fixpoint json_clean (v : value) : value :=
  match v with
  | VArr xs =>
      VArr (List.map (fun x => match x with
                               | VUndef => VNull
                               | _ => json_clean x
                               end) xs)
  | VObj kvs =>
      VObj (List.flat_map
              (fun kv => match kv with
                         | (_, VUndef) => []
                         | (k, x) => [(k, json_clean x)]
                         end) kvs)
  | _ => v
  end.

(** ** Strings *)

Definition is_alnum (c : ascii) : bool :=
  let n := nat_of_ascii c in
  ((48 <=? n) && (n <=? 57) || (65 <=? n) && (n <=? 90)
   || (97 <=? n) && (n <=? 122))%nat.

Fixpoint map_string (f : ascii -> ascii) (s : string) : string :=
  match s with
  | EmptyString => EmptyString
  | String c rest => String (f c) (map_string f rest)
  end.

Definition lower_ascii (c : ascii) : ascii :=
  let n := nat_of_ascii c in
  if ((65 <=? n) && (n <=? 90))%nat then ascii_of_nat (n + 32) else c.

(** Dropbox paths are case-insensitive; [path_lower] is the normal form
    under which a file is stored and listed. *)
Definition path_lower (p : string) : string := map_string lower_ascii p.

(** [s.endsWith(suffix)] *)
Definition endsWith (s suffix : string) : bool :=
  let n := String.length s in
  let m := String.length suffix in
  (m <=? n)%nat && String.eqb (String.substring (n - m) m s) suffix.

(** [s.replace(pat, by)] for a string pattern: the first occurrence only. *)
Definition replace_first (pat by_ s : string) : string :=
  match String.index 0 pat s with
  | Some i =>
      String.substring 0 i s +:+ by_
      +:+ String.substring (i + String.length pat)
            (String.length s - (i + String.length pat)) s
  | None => s
  end.

(** The part of a path after its last slash, and the part before it. *)
Fixpoint basename_aux (s acc : string) : string :=
  match s with
  | EmptyString => acc
  | String c rest =>
      if Ascii.eqb c "/" then basename_aux rest rest
      else basename_aux rest acc
  end.
Definition basename (p : string) : string := basename_aux p p.
Definition dirname (p : string) : string :=
  String.substring 0
    (String.length p - String.length (basename p) - 1) p.


(** A string without a question mark: a link with no query part. *)
Fixpoint no_query (s : string) : bool :=
  match s with
  | EmptyString => true
  | String c rest => negb (Ascii.eqb c "?") && no_query rest
  end.

(** ** Runtime builtins *)

Class Builtins : Type := {
  (** [JSON.stringify(v, null, 2)] *)
  JSON_stringify : value -> string;
  (** [JSON.parse(s)]; [Throw] is its SyntaxError *)
  JSON_parse : string -> result value;
  (** [Date.parse(s)]; [None] is NaN *)
  Date_parse : string -> option Z;
  (** [d.toLocaleDateString()] and [d.toISOString()] of a valid date *)
  toLocaleDateString : Z -> string;
  toISOString : Z -> string;
  (** [Number(s)] of a string; [None] is NaN *)
  StringToNumber : string -> option Z;
  (** the text of the HTML template of [generateQuoteHtml], given the
      quote, its [data], the rendered locations ([None] for the block
      that stands for no location data) and the current time; and the
      text of one location item, given its number and the four
      interpolated values *)
  quote_template : value -> value -> option string -> Z -> string;
  location_template : Z -> value -> value -> value -> value -> string
}.

(** A [Date] object is its time value in milliseconds, [None] for an
    Invalid Date.  [TimeClip] bounds the valid range. *)
Definition JsDate : Type := option Z.

Definition TimeClip (t : option Z) : JsDate :=
  match t with
  | Some n => if Z.abs n <=? 8640000000000000 then Some n else None
  | None => None
  end.

(** ** The service object, the remote store and the world *)

(** The fields of a [DropboxService] instance that its methods read or
    write.  The credentials come from [process.env] and may be missing. *)
Record Service : Type := {
  appKey : option string;
  appSecret : option string;
  refreshToken : option string;
  accessToken : value;
  tokenExpiresAt : option JsDate
}.

(** A file of the remote store: the path it was uploaded under and its
    text. *)
Record File : Type := {
  file_display : string;
  file_content : string
}.

(** The HTTP requests the service issues ([axios.post]). *)
Inductive Call : Type :=
| PostToken (refresh_token client_id client_secret : string)
| PostUpload (path : string) (content : string) (token : value)
| PostDownload (path : value) (token : value)
| PostDelete (path : value) (token : value)
| PostListFolder (path : string) (token : value)
| PostCreateLink (path : string) (token : value)
| PostListLinks (path : string) (token : value).

(** The world the methods run in: the service object, the remote store
    (a flat, case-insensitive map from [path_lower] to files), the clock
    that [Date.now()] reads, and the requests issued so far, oldest
    first. *)
Record World : Type := {
  svc : Service;
  files : gmap string File;
  clock : Z;
  trace : list Call
}.

(** What the service cannot control: whether the [n]-th request is
    rejected by the transport or answered with a non-2xx status (axios
    then rejects with that message), the body of a 2xx answer of the
    endpoints the store does not determine (token and sharing), and how
    long the [n]-th request takes. *)
Record Env : Type := {
  reject : nat -> Call -> option string;
  reply : nat -> Call -> value;
  latency : nat -> Z
}.

(** ** Asynchronous computations *)

Definition M (A : Type) : Type := World -> result A * World.

Definition ret {A} (a : A) : M A := fun w => (Ok a, w).
Definition throw {A} (msg : string) : M A := fun w => (Throw msg, w).
Definition bind {A B} (m : M A) (k : A -> M B) : M B :=
  fun w => match m w with
           | (Ok a, w') => k a w'
           | (Throw msg, w') => (Throw msg, w')
           end.
(** [try { m } catch (error) { h(error.message) }] *)
Definition try_catch {A} (m : M A) (h : string -> M A) : M A :=
  fun w => match m w with
           | (Ok a, w') => (Ok a, w')
           | (Throw msg, w') => h msg w'
           end.
Definition lift {A} (r : result A) : M A := fun w => (r, w).
Definition get_svc : M Service := fun w => (Ok (svc w), w).
Definition put_svc (s : Service) : M unit :=
  fun w => (Ok tt, {| svc := s; files := files w;
                      clock := clock w; trace := trace w |}).
Definition put_files (fs : gmap string File) : M unit :=
  fun w => (Ok tt, {| svc := svc w; files := fs;
                      clock := clock w; trace := trace w |}).
Definition get_files : M (gmap string File) := fun w => (Ok (files w), w).
(** [Date.now()] *)
Definition Date_now : M Z := fun w => (Ok (clock w), w).

Notation "'let*' x ':=' m 'in' k" := (bind m (fun x => k))
  (at level 10, x name, m at level 100, k at level 200).
Notation "m ';;' k" := (bind m (fun _ => k))
  (at level 100, k at level 200, right associativity).

Section Service.
Context `{Builtins} (env : Env).

(** [Number(v)]; [None] is NaN. *)
Definition ToNumber (v : value) : option Z :=
  match v with
  | VUndef => None
  | VNull => Some 0
  | VBool b => Some (if b then 1 else 0)
  | VNum n => Some n
  | VStr s => StringToNumber s
  | VArr _ | VObj _ => StringToNumber (ToString v)
  end.

(** [new Date(v)] *)
Definition new_Date (v : value) : JsDate :=
  match v with
  | VUndef => None
  | VNull => Some 0
  | VBool b => Some (if b then 1 else 0)
  | VNum n => TimeClip (Some n)
  | VStr s => TimeClip (Date_parse s)
  | VArr _ | VObj _ => TimeClip (Date_parse (ToString v))
  end.

Definition Date_toLocaleDateString (d : JsDate) : string :=
  match d with
  | Some t => toLocaleDateString t
  | None => "Invalid Date"
  end.

Definition Date_toISOString (d : JsDate) : result string :=
  match d with
  | Some t => Ok (toISOString t)
  | None => Throw "Invalid time value"
  end.

(** [v == s] where [s] is a string (abstract equality comparison). *)
Definition loose_eq_string (v : value) (s : string) : bool :=
  match v with
  | VUndef | VNull => false
  | VStr s' => String.eqb s' s
  | VNum n =>
      match StringToNumber s with Some m => n =? m | None => false end
  | VBool b =>
      match StringToNumber s with
      | Some m => (if b then 1 else 0) =? m
      | None => false
      end
  | VArr _ | VObj _ => String.eqb (ToString v) s
  end.

(** The world after one more request: the request is recorded and time
    has passed. *)
Definition posted (w : World) (c : Call) : World :=
  {| svc := svc w; files := files w;
     clock := clock w + latency env (List.length (trace w));
     trace := trace w ++ [c] |}.

(** [axios.post]: the request is issued and the transport may reject
    it; a request that is not rejected is identified by its number. *)
Definition axios_post (c : Call) : M nat :=
  fun w =>
    let n := List.length (trace w) in
    match reject env n c with
    | Some msg => (Throw msg, posted w c)
    | None => (Ok n, posted w c)
    end.

Definition status_400 : string := "Request failed with status code 400".
Definition status_409 : string := "Request failed with status code 409".

(** ** Token lifecycle *)

Definition falsy_str (o : option string) : bool :=
  match o with
  | None => true
  | Some s => String.eqb s ""
  end.

Definition set_token (tok : value) (s : Service) : Service :=
  {| appKey := appKey s; appSecret := appSecret s;
     refreshToken := refreshToken s;
     accessToken := tok; tokenExpiresAt := tokenExpiresAt s |}.

Definition set_expiry (d : JsDate) (s : Service) : Service :=
  {| appKey := appKey s; appSecret := appSecret s;
     refreshToken := refreshToken s;
     accessToken := accessToken s; tokenExpiresAt := Some d |}.

(** [new DropboxService()]: the three credentials are read from
    [process.env], where each may be missing, and no token is held.  A
    missing credential is only warned about. *)
Definition new_DropboxService
    (DROPBOX_APP_KEY DROPBOX_APP_SECRET DROPBOX_REFRESH_TOKEN : option string)
  : Service :=
  {| appKey := DROPBOX_APP_KEY;
     appSecret := DROPBOX_APP_SECRET;
     refreshToken := DROPBOX_REFRESH_TOKEN;
     accessToken := VNull;
     tokenExpiresAt := None |}.

(** The refresh-token grant request of [refreshAccessToken]. *)
Definition token_request (s : Service) : Call :=
  PostToken (default "" (refreshToken s)) (default "" (appKey s))
    (default "" (appSecret s)).

Definition refreshAccessToken : M value :=
  try_catch
    (let* s := get_svc in
     if falsy_str (appKey s) || falsy_str (appSecret s)
        || falsy_str (refreshToken s)
     then throw "Missing Dropbox OAuth credentials"
     else
       let c := token_request s in
       let* n := axios_post c in
       let data := reply env n c in
       (* const { access_token, expires_in } = response.data *)
       let* access_token := lift (get_prop data "access_token") in
       let* expires_in := lift (get_prop data "expires_in") in
       let* s := get_svc in
       put_svc (set_token access_token s);;
       let* now := Date_now in
       let expires :=
         TimeClip (match ToNumber expires_in with
                   | Some e => Some (now + e * 1000)
                   | None => None
                   end) in
       let* s := get_svc in
       put_svc (set_expiry expires s);;
       (* the log line calls toISOString on the new expiry *)
       let* _ := lift (Date_toISOString expires) in
       let* s := get_svc in
       ret (accessToken s))
    (fun msg => throw ("Failed to refresh token: " +:+ msg)).

Definition bufferTime : Z := 10 * 60 * 1000.

Definition needs_refresh (s : Service) (now : Z) : bool :=
  negb (truthy (accessToken s))
  || match tokenExpiresAt s with
     | None => true
     | Some None => false
     | Some (Some t) => t - bufferTime <=? now
     end.

Definition refreshTokenIfNeeded : M value :=
  let* s := get_svc in
  let* now := Date_now in
  (if needs_refresh s now
   then let* _ := refreshAccessToken in ret tt
   else ret tt);;
  let* s := get_svc in
  ret (accessToken s).

Definition getValidToken : M value :=
  refreshTokenIfNeeded;;
  let* s := get_svc in
  ret (accessToken s).

(** ** The remote store *)

(** An entry of a folder listing. *)
Record Entry : Type := {
  entry_name : string;
  entry_path_lower : string
}.

(** Modelled from the spec: [POST files/upload] with mode [overwrite]
    stores the content under the path, replacing what was there, and
    answers with the metadata of the file. *)
Definition files_upload (path content : string) : M value :=
  let* fs := get_files in
  put_files (<[path_lower path :=
                 {| file_display := path; file_content := content |}]> fs);;
  ret (VObj [("name", VStr (basename path));
             ("path_lower", VStr (path_lower path));
             ("path_display", VStr path)]).

(** Modelled from the spec: [POST files/download] answers with the raw
    content of the file at the path.  A path that is not a string is a
    malformed request (status 400); a path at which there is no file is
    a lookup conflict (status 409). *)
Definition files_download (path : value) : M string :=
  let* fs := get_files in
  match path with
  | VStr p =>
      match fs !! path_lower p with
      | Some f => ret (file_content f)
      | None => throw status_409
      end
  | _ => throw status_400
  end.

(** Modelled from the spec: [POST files/delete_v2] removes the file at
    the path and answers with its metadata; the failures are those of a
    download. *)
Definition files_delete_v2 (path : value) : M value :=
  let* fs := get_files in
  match path with
  | VStr p =>
      match fs !! path_lower p with
      | Some f =>
          put_files (delete (path_lower p) fs);;
          ret (VObj [("metadata",
                      VObj [("name", VStr (basename (file_display f)));
                            ("path_lower", VStr (path_lower p))])])
      | None => throw status_409
      end
  | _ => throw status_400
  end.

(** The files directly inside [folder].  Sub-folders are not listed:
    an entry for a folder could pass the name filter of
    [scanDropboxQuotes] but its download fails, so it never contributes
    a quote. *)
Definition list_folder_entries (folder : string) (fs : gmap string File)
  : list Entry :=
  List.map
    (fun kf => {| entry_name := basename (file_display (snd kf));
                  entry_path_lower := fst kf |})
    (List.filter
       (fun kf => String.eqb (dirname (fst kf)) (path_lower folder))
       (map_to_list fs)).

(** Modelled from the spec: [POST files/list_folder], not recursive,
    answers with the entries of the folder. *)
Definition files_list_folder (folder : string) : M (list Entry) :=
  let* fs := get_files in
  ret (list_folder_entries folder fs).

(** ** Remote file operations *)

Definition uploadFile (path content : string) (token : value) : M value :=
  axios_post (PostUpload path content token);;
  files_upload path content.

Definition downloadFile (path : value) (token : value) : M string :=
  axios_post (PostDownload path token);;
  files_download path.

Definition deleteFile (path : value) (token : value) : M value :=
  axios_post (PostDelete path token);;
  files_delete_v2 path.

(** [x.replace('?dl=0', '?raw=1')] for an arbitrary [x]. *)
Definition call_replace_dl (x : value) : result string :=
  match x with
  | VStr s => Ok (replace_first "?dl=0" "?raw=1" s)
  | VUndef => Throw "Cannot read properties of undefined (reading 'replace')"
  | VNull => Throw "Cannot read properties of null (reading 'replace')"
  | _ => Throw "url.replace is not a function"
  end.

(** [x[0]] *)
Definition get_index0 (x : value) : result value :=
  match x with
  | VUndef => Throw "Cannot read properties of undefined (reading '0')"
  | VNull => Throw "Cannot read properties of null (reading '0')"
  | VArr xs => Ok (default VUndef (head xs))
  | VStr (String c _) => Ok (VStr (String c EmptyString))
  | VObj kvs => Ok (default VUndef (assoc "0" kvs))
  | _ => Ok VUndef
  end.

(** [x > 0] *)
Definition gt0 (x : value) : bool :=
  match ToNumber x with Some n => 0 <? n | None => false end.

Definition createSharedLink (path : string) (token : value) : M string :=
  try_catch
    (let c := PostCreateLink path token in
     let* n := axios_post c in
     let data := reply env n c in
     let* url := lift (get_prop data "url") in
     lift (call_replace_dl url))
    (fun msg =>
       (* If link already exists, try to get existing ones *)
       let* found :=
         try_catch
           (let c := PostListLinks path token in
            let* n := axios_post c in
            let data := reply env n c in
            let* links := lift (get_prop data "links") in
            if truthy links then
              let* len := lift (get_prop links "length") in
              if gt0 len then
                let* l0 := lift (get_index0 links) in
                let* url := lift (get_prop l0 "url") in
                let* u := lift (call_replace_dl url) in
                ret (Some u)
              else ret None
            else ret None)
           (fun _ => ret None) in
       match found with
       | Some u => ret u
       | None => throw msg
       end).

(** ** Listing *)

(** [new Date(b.date_created) - new Date(a.date_created)]; [None] is NaN. *)
Definition date_diff (a b : value) : result (option Z) :=
  match get_prop b "date_created" with
  | Throw m => Throw m
  | Ok db =>
      match get_prop a "date_created" with
      | Throw m => Throw m
      | Ok da =>
          Ok (match new_Date db, new_Date da with
              | Some tb, Some ta => Some (tb - ta)
              | _, _ => None
              end)
      end
  end.

(** [Array.prototype.sort] with the comparator [date_diff]: a stable
    sort; an element goes after another only when the comparator is
    positive (a NaN counts as zero). *)
Fixpoint sort_insert (x : value) (l : list value) : result (list value) :=
  match l with
  | [] => Ok [x]
  | y :: rest =>
      match date_diff x y with
      | Throw m => Throw m
      | Ok d =>
          if match d with Some n => 0 <? n | None => false end
          then match sort_insert x rest with
               | Ok l' => Ok (y :: l')
               | Throw m => Throw m
               end
          else Ok (x :: l)
      end
  end.

Fixpoint sort_quotes (l : list value) : result (list value) :=
  match l with
  | [] => Ok []
  | x :: rest =>
      match sort_quotes rest with
      | Ok rest' => sort_insert x rest'
      | Throw m => Throw m
      end
  end.

(** The body of the [for ... of] loop of [scanDropboxQuotes], with its
    own [try]/[catch]: [quotes] is the array being filled. *)
Definition scan_file (customerId : string) (token : value)
    (file : Entry) (quotes : list value) : M (list value) :=
  try_catch
    (let* content := downloadFile (VStr (entry_path_lower file)) token in
     let* metadata := lift (JSON_parse content) in
     let* cid := lift (get_prop metadata "customer_id") in
     if loose_eq_string cid customerId
     then ret (quotes ++ [metadata])
     else ret quotes)
    (fun _ => ret quotes).

Fixpoint scan_files (customerId : string) (token : value)
    (metadataFiles : list Entry) (quotes : list value) : M (list value) :=
  match metadataFiles with
  | [] => ret quotes
  | file :: rest =>
      let* quotes' := scan_file customerId token file quotes in
      scan_files customerId token rest quotes'
  end.

Definition quotes_folder : string := "/dtf-quotes".

Definition scanDropboxQuotes (customerId : string) (token : value)
  : M (list value) :=
  try_catch
    (axios_post (PostListFolder quotes_folder token);;
     let* entries := files_list_folder quotes_folder in
     let metadataFiles :=
       List.filter (fun e => endsWith (entry_name e) "_metadata.json")
         entries in
     let* quotes := scan_files customerId token metadataFiles [] in
     lift (sort_quotes quotes))
    (fun _ => ret []).

(** ** Rendering *)

(** [a || b] *)
Definition or_else (a b : value) : value := if truthy a then a else b.

Definition sanitize_char (c : ascii) : ascii :=
  if is_alnum c then c else "_"%char.

(** [quoteData.quote_name.replace(/[^a-zA-Z0-9]/g, '_')] followed by the
    template literal; only a string has a [replace] method. *)
Definition generateFileName (quoteData : value) : result string :=
  match get_prop quoteData "quote_name" with
  | Throw m => Throw m
  | Ok (VStr name) =>
      match get_prop quoteData "id" with
      | Throw m => Throw m
      | Ok id =>
          Ok (map_string sanitize_char name +:+ "_" +:+ ToString id
              +:+ ".html")
      end
  | Ok VUndef =>
      Throw "Cannot read properties of undefined (reading 'replace')"
  | Ok VNull => Throw "Cannot read properties of null (reading 'replace')"
  | Ok _ => Throw "quoteData.quote_name.replace is not a function"
  end.

(** One step of [locations.map]: the item for [location], numbered
    [index + 1]. *)
Definition render_location (index : nat) (location : value)
  : result string :=
  let number := Z.of_nat index + 1 in
  match get_prop location "name" with
  | Throw m => Throw m
  | Ok n =>
      let name := or_else n (VStr ("Location " +:+ pretty number)) in
      let width :=
        or_else (prop location "width")
          (or_else (prop location "w") (VNum 0)) in
      let height :=
        or_else (prop location "height")
          (or_else (prop location "h") (VNum 0)) in
      let quantity :=
        or_else (prop location "quantity")
          (or_else (prop location "qty")
             (or_else (prop location "q") (VNum 0))) in
      Ok (location_template number name width height quantity)
  end.

Fixpoint render_locations (index : nat) (locations : list value)
  : result string :=
  match locations with
  | [] => Ok ""
  | location :: rest =>
      match render_location index location with
      | Throw m => Throw m
      | Ok item =>
          match render_locations (S index) rest with
          | Throw m => Throw m
          | Ok items => Ok (item +:+ items)
          end
      end
  end.

(** The control flow of [generateQuoteHtml]: the locations are rendered
    when there are any, and the template is filled in. *)
Definition generateQuoteHtml (quoteData : value) (now : Z) : result string :=
  match get_prop quoteData "data" with
  | Throw m => Throw m
  | Ok d =>
      let data := or_else d (VObj []) in
      match get_prop quoteData "locations" with
      | Throw m => Throw m
      | Ok l =>
          let locations := or_else l (VArr []) in
          match get_prop locations "length" with
          | Throw m => Throw m
          | Ok len =>
              if truthy locations && gt0 len then
                match locations with
                | VArr xs =>
                    match render_locations 0 xs with
                    | Throw m => Throw m
                    | Ok html =>
                        Ok (quote_template quoteData data (Some html) now)
                    end
                | _ => Throw "locations.map is not a function"
                end
              else Ok (quote_template quoteData data None now)
          end
      end
  end.

(** ** Quotes *)

Definition metadata_path (quoteId : value) : string :=
  "/dtf-quotes/" +:+ ToString quoteId +:+ "_metadata.json".

Definition saveQuote (quoteData : value) (isUpdate : value) : M value :=
  try_catch
    (let* token := getValidToken in
     let* fileName := lift (generateFileName quoteData) in
     let filePath := "/dtf-quotes/" +:+ fileName in
     let* now := Date_now in
     let* htmlContent := lift (generateQuoteHtml quoteData now) in
     let* uploadResult := uploadFile filePath htmlContent token in
     let* id := lift (get_prop quoteData "id") in
     let* quote_name := lift (get_prop quoteData "quote_name") in
     let* customer_id := lift (get_prop quoteData "customer_id") in
     let* customer_email := lift (get_prop quoteData "customer_email") in
     let* date_created := lift (get_prop quoteData "date_created") in
     let* data := lift (get_prop quoteData "data") in
     let* locations := lift (get_prop quoteData "locations") in
     let* total_transfers := lift (get_prop quoteData "total_transfers") in
     let* pricing := lift (get_prop quoteData "pricing") in
     let* now' := Date_now in
     let metadata :=
       VObj [("id", id);
             ("quote_name", quote_name);
             ("customer_id", customer_id);
             ("customer_email", customer_email);
             ("date_created", date_created);
             ("data", data);
             ("locations", locations);
             ("total_transfers", total_transfers);
             ("pricing", pricing);
             ("file_path", VStr filePath);
             ("last_updated", VStr (toISOString now'))] in
     let metadataPath := metadata_path id in
     uploadFile metadataPath (JSON_stringify metadata) token;;
     let* shareUrl :=
       try_catch
         (let* u := createSharedLink filePath token in ret (VStr u))
         (fun _ => ret VNull) in
     ret (VObj [("success", VBool true);
                ("message",
                 VStr (if truthy isUpdate then "Quote updated successfully"
                       else "Quote saved successfully"));
                ("quote_id", id);
                ("file_path", VStr filePath);
                ("download_url", shareUrl);
                ("metadata", metadata)]))
    (fun msg => throw ("Failed to save quote: " +:+ msg)).

Definition is_json_format (format : value) : bool :=
  match format with
  | VStr f => String.eqb f "json"
  | _ => false
  end.

Definition loadQuote (quoteId : value) (format : value) : M value :=
  try_catch
    (let* token := getValidToken in
     let metadataPath := metadata_path quoteId in
     let* metadataContent := downloadFile (VStr metadataPath) token in
     let* metadata := lift (JSON_parse metadataContent) in
     if is_json_format format then ret metadata
     else
       let* file_path := lift (get_prop metadata "file_path") in
       let* htmlContent := downloadFile file_path token in
       ret (VStr htmlContent))
    (fun msg => throw ("Failed to load quote: " +:+ msg)).

(** The own enumerable properties that [{...v}] copies. *)
Fixpoint index_props (i : nat) (xs : list value) : list (string * value) :=
  match xs with
  | [] => []
  | x :: rest => (pretty i, x) :: index_props (S i) rest
  end.

Fixpoint char_values (s : string) : list value :=
  match s with
  | EmptyString => []
  | String c rest => VStr (String c EmptyString) :: char_values rest
  end.

Definition spread_props (v : value) : list (string * value) :=
  match v with
  | VObj kvs => kvs
  | VArr xs => index_props 0 xs
  | VStr s => index_props 0 (char_values s)
  | _ => []
  end.

(** [{...quote, date_created: new Date(quote.date_created)
    .toLocaleDateString()}] *)
Definition localize_date (quote : value) : result value :=
  match get_prop quote "date_created" with
  | Throw m => Throw m
  | Ok d =>
      Ok (VObj (set_key "date_created"
                  (VStr (Date_toLocaleDateString (new_Date d)))
                  (spread_props quote)))
  end.

Fixpoint map_result {A B} (f : A -> result B) (l : list A)
  : result (list B) :=
  match l with
  | [] => Ok []
  | x :: rest =>
      match f x with
      | Throw m => Throw m
      | Ok y =>
          match map_result f rest with
          | Throw m => Throw m
          | Ok ys => Ok (y :: ys)
          end
      end
  end.

Definition loadCustomerQuotes (customerId : string) : M (list value) :=
  try_catch
    (let* token := getValidToken in
     let* quotes := scanDropboxQuotes customerId token in
     lift (map_result localize_date quotes))
    (fun _ => ret []).

Definition deleteQuote (quoteId : value) (customerId : value) : M value :=
  try_catch
    (let* token := getValidToken in
     let* metadata := loadQuote quoteId (VStr "json") in
     let* file_path := lift (get_prop metadata "file_path") in
     deleteFile file_path token;;
     let metadataPath := metadata_path quoteId in
     deleteFile (VStr metadataPath) token;;
     ret (VObj [("success", VBool true);
                ("message", VStr "Quote deleted successfully");
                ("deleted_quote_id", quoteId)]))
    (fun msg => throw ("Failed to delete quote: " +:+ msg)).

(** ** Logos *)

Definition logo_metadata_path (customerId : string) : string :=
  "/customer_logos/" +:+ customerId +:+ "/logo_metadata.json".

Definition loadCustomerLogo (customerId : string) : M value :=
  try_catch
    (let* token := getValidToken in
     let logoMetadataPath := logo_metadata_path customerId in
     let* metadataContent := downloadFile (VStr logoMetadataPath) token in
     let* logoData := lift (JSON_parse metadataContent) in
     ret logoData)
    (fun _ => ret VNull).

(** [logoData] is whatever the caller passes, printed as JSON text.  For
    [undefined] (and only then, among JSON values) [JSON.stringify]
    gives [undefined] instead of a text; the statements about this
    method exclude that argument. *)
Definition saveCustomerLogo (customerId : string) (logoData : value)
  : M value :=
  try_catch
    (let* token := getValidToken in
     let logoMetadataPath := logo_metadata_path customerId in
     uploadFile logoMetadataPath (JSON_stringify logoData) token;;
     ret logoData)
    (fun msg => throw ("Failed to save logo metadata: " +:+ msg)).

Definition logo_path (customerId : string) (filename : value) : string :=
  "/customer_logos/" +:+ customerId +:+ "/" +:+ ToString filename.

Definition deleteCustomerLogo (customerId : string) : M value :=
  try_catch
    (let* token := getValidToken in
     let* logoData := loadCustomerLogo customerId in
     (if truthy logoData then
        let* filename := lift (get_prop logoData "filename") in
        let logoPath := logo_path customerId filename in
        deleteFile (VStr logoPath) token;;
        let metadataPath := logo_metadata_path customerId in
        deleteFile (VStr metadataPath) token;;
        ret tt
      else ret tt);;
     ret (VObj [("success", VBool true);
                ("message", VStr "Logo deleted successfully")]))
    (fun msg => throw ("Failed to delete logo: " +:+ msg)).

End Service.

(** * The HTTP routes

    The handlers of [src/unnamed/part_000] (the Express application),
    each a computation from the request to the response it sends.  The
    middleware in front of them (CORS, body parsing) is not modelled: a
    handler starts from the parsed request. *)

(** What a handler reads of a request: the route parameters, which are
    strings; the parsed query string; the parsed body. *)
Record Request : Type := {
  req_params : list (string * string);
  req_query : list (string * value);
  req_body : value
}.

(** [res.status(s).json(b)]; [res.json(b)] sends status 200. *)
Record Response : Type := {
  res_status : Z;
  res_body : value
}.

(** A route parameter, [undefined] ([None]) when the route has none of
    that name. *)
Fixpoint param (k : string) (ps : list (string * string)) : option string :=
  match ps with
  | [] => None
  | (k', s) :: rest => if String.eqb k k' then Some s else param k rest
  end.

(** [const { k } = source]: destructuring throws on [undefined] and
    [null]. *)
Definition destructure (v : value) (k source : string) : result value :=
  match v with
  | VUndef =>
      Throw ("Cannot destructure property '" +:+ k +:+ "' of '" +:+ source
             +:+ "' as it is undefined.")
  | VNull =>
      Throw ("Cannot destructure property '" +:+ k +:+ "' of '" +:+ source
             +:+ "' as it is null.")
  | _ => get_prop v k
  end.

(** [k = d] in a destructuring pattern: the default stands in for
    [undefined] only. *)
Definition default_arg (d v : value) : value :=
  match v with
  | VUndef => d
  | _ => v
  end.

Definition error_body (error : string) : value :=
  VObj [("error", VStr error)].

Definition failure_body (error message : string) : value :=
  VObj [("error", VStr error); ("message", VStr message)].

Definition success_body (data : value) : value :=
  VObj [("success", VBool true); ("data", data)].

Section Routes.
Context `{Builtins} (env : Env).

Definition respond (s : Z) (b : value) : M Response :=
  ret {| res_status := s; res_body := b |}.

(** [GET /health] *)
Definition get_health (req : Request) : M Response :=
  let* now := Date_now in
  respond 200 (VObj [("status", VStr "ok");
                     ("timestamp", VStr (toISOString now));
                     ("service", VStr "DTF Backend API")]).

(** [POST /api/save-quote] *)
Definition post_save_quote (req : Request) : M Response :=
  try_catch
    (let body := req_body req in
     let* quoteData := lift (destructure body "quoteData" "req.body") in
     let* isUpdate := lift (destructure body "isUpdate" "req.body") in
     let isUpdate := default_arg (VBool false) isUpdate in
     (* !quoteData || !quoteData.id *)
     let* invalid :=
       if truthy quoteData
       then let* id := lift (get_prop quoteData "id") in
            ret (negb (truthy id))
       else ret true in
     if invalid
     then respond 400
            (error_body "Invalid quote data. Missing required fields.")
     else
       let* result := saveQuote env quoteData isUpdate in
       respond 200 result)
    (fun msg => respond 500 (failure_body "Failed to save quote" msg)).


(** [GET /api/customer-quotes/:customerId] *)
Definition get_customer_quotes (req : Request) : M Response :=
  try_catch
    (let customerId := param "customerId" (req_params req) in
     if falsy_str customerId
     then respond 400 (error_body "Customer ID is required")
     else
       let* quotes := loadCustomerQuotes env (default "" customerId) in
       respond 200 (success_body (VArr quotes)))
    (fun msg =>
       respond 500 (failure_body "Failed to load customer quotes" msg)).

(** [DELETE /api/delete-quote/:quoteId] *)
Definition delete_quote (req : Request) : M Response :=
  try_catch
    (let quoteId := param "quoteId" (req_params req) in
     let customerId := default VUndef (assoc "customerId" (req_query req)) in
     if falsy_str quoteId
     then respond 400 (error_body "Quote ID is required")
     else
       let* result :=
         deleteQuote env (VStr (default "" quoteId)) customerId in
       respond 200 result)
    (fun msg => respond 500 (failure_body "Failed to delete quote" msg)).


(** [GET /api/get-logo/:customerId] *)
Definition get_logo (req : Request) : M Response :=
  try_catch
    (let customerId := param "customerId" (req_params req) in
     if falsy_str customerId
     then respond 400 (error_body "Customer ID is required")
     else
       let* logoData := loadCustomerLogo env (default "" customerId) in
       if negb (truthy logoData)
       then respond 404 (error_body "Logo not found")
       else respond 200 (success_body logoData))
    (fun msg => respond 500 (failure_body "Failed to load logo" msg)).


(** The hourly job and the check at start-up: a refresh if one is
    needed, a failure being logged and dropped. *)
Definition scheduled_refresh : M unit :=
  try_catch
    (refreshTokenIfNeeded env;; ret tt)
    (fun _ => ret tt).

End Routes.

(** * Vocabulary of the properties

    Notions the statements below are phrased in: counts over the trace
    of requests, the conditions of the specification in its own words,
    and closed forms of what the methods compute. *)

(** The number of requests to the token endpoint in a trace. *)
Definition is_token_post (c : Call) : bool :=
  match c with PostToken _ _ _ => true | _ => false end.
Definition token_posts (t : list Call) : nat :=
  List.length (List.filter is_token_post t).

(** A request to the delete endpoint. *)
Definition is_delete_post (c : Call) : bool :=
  match c with PostDelete _ _ => true | _ => false end.

(** The credentials are configured. *)
Definition configured (s : Service) : bool :=
  negb (falsy_str (appKey s) || falsy_str (appSecret s)
        || falsy_str (refreshToken s)).

(** The two cases of the specification of the freshness check, in its
    own words: the token is [spec_stale] when it is unset, or its expiry
    is unset, or the expiry is at most ten minutes away; it is
    [spec_fresh] when it is set and the expiry is more than ten minutes
    away.  A token is set when the field holds a non-empty token, which
    is what the guard of [refreshTokenIfNeeded] tests. *)
Definition spec_stale (s : Service) (now : Z) : Prop :=
  truthy (accessToken s) = false
  \/ tokenExpiresAt s = None
  \/ exists t, tokenExpiresAt s = Some (Some t) /\ now >= t - 10 * 60 * 1000.

Definition spec_fresh (s : Service) (now : Z) : Prop :=
  truthy (accessToken s) = true
  /\ exists t, tokenExpiresAt s = Some (Some t) /\ now < t - 10 * 60 * 1000.


(** The metadata record [saveQuote] builds for [quoteData]. *)
Definition saved_metadata (quoteData : value) (filePath stamp : string)
  : value :=
  VObj [("id", prop quoteData "id");
        ("quote_name", prop quoteData "quote_name");
        ("customer_id", prop quoteData "customer_id");
        ("customer_email", prop quoteData "customer_email");
        ("date_created", prop quoteData "date_created");
        ("data", prop quoteData "data");
        ("locations", prop quoteData "locations");
        ("total_transfers", prop quoteData "total_transfers");
        ("pricing", prop quoteData "pricing");
        ("file_path", VStr filePath);
        ("last_updated", VStr stamp)].

(** The envelope [saveQuote] resolves to. *)
Definition save_envelope (isUpdate id : value) (filePath : string)
    (shareUrl metadata : value) : value :=
  VObj [("success", VBool true);
        ("message",
         VStr (if truthy isUpdate then "Quote updated successfully"
               else "Quote saved successfully"));
        ("quote_id", id);
        ("file_path", VStr filePath);
        ("download_url", shareUrl);
        ("metadata", metadata)].

(** The fields [saveQuote] copies from the quote. *)
Definition copied_fields : list string :=
  ["id"; "quote_name"; "customer_id"; "customer_email"; "date_created";
   "data"; "locations"; "total_transfers"; "pricing"].

Section Vocabulary.
Context `{Builtins} (env : Env).

(** What the metadata file behind a folder entry contributes to the
    quotes of [customerId] once it has been downloaded: the parsed record
    if its customer identifier matches, nothing if it does not, or if the
    file is missing, does not parse, or parses to [null]. *)
Definition entry_quote (customerId : string) (fs : gmap string File)
    (e : Entry) : list value :=
  match fs !! path_lower (entry_path_lower e) with
  | Some f =>
      match JSON_parse (file_content f) with
      | Ok r =>
          match get_prop r "customer_id" with
          | Ok cid => if loose_eq_string cid customerId then [r] else []
          | Throw _ => []
          end
      | Throw _ => []
      end
  | None => []
  end.

(** The quotes collected from a list of entries when the first download
    is request number [n]: a rejected download contributes nothing. *)
Fixpoint scanned (customerId : string) (token : value)
    (fs : gmap string File) (n : nat) (entries : list Entry) : list value :=
  match entries with
  | [] => []
  | e :: rest =>
      (match reject env n (PostDownload (VStr (entry_path_lower e)) token) with
       | Some _ => []
       | None => entry_quote customerId fs e
       end) ++ scanned customerId token fs (S n) rest
  end.

(** The creation time of a record, as the comparator and the final
    [map] read it. *)
Definition date_of (v : value) : JsDate := new_Date (prop v "date_created").

(** The comparator is positive: [x] sorts after [y]. *)
Definition goes_after (x y : value) : bool :=
  match date_of y, date_of x with
  | Some ty, Some tx => 0 <? ty - tx
  | _, _ => false
  end.

(** [a] was created no earlier than [b], both creation times being
    valid dates. *)
Definition not_older (a b : value) : Prop :=
  match date_of a, date_of b with
  | Some ta, Some tb => tb <= ta
  | _, _ => False
  end.

Fixpoint insert_by_date (x : value) (l : list value) : list value :=
  match l with
  | [] => [x]
  | y :: rest =>
      if goes_after x y then y :: insert_by_date x rest else x :: l
  end.

Fixpoint sorted_by_date (l : list value) : list value :=
  match l with
  | [] => []
  | x :: rest => insert_by_date x (sorted_by_date rest)
  end.

(** A record as [loadCustomerQuotes] returns it: a copy whose
    [date_created] is the locale date string. *)
Definition localized (v : value) : value :=
  VObj (set_key "date_created"
          (VStr (Date_toLocaleDateString (date_of v))) (spread_props v)).

(** The metadata files of the quotes folder, as the scan sees them. *)
Definition metadata_files (fs : gmap string File) : list Entry :=
  List.filter (fun e => endsWith (entry_name e) "_metadata.json")
    (list_folder_entries quotes_folder fs).

(** What [loadCustomerQuotes] resolves to, in every world. *)
Definition customer_quotes (customerId : string) (w : World) : list value :=
  match getValidToken env w with
  | (Throw _, _) => []
  | (Ok token, w0) =>
      let n := List.length (trace w0) in
      match reject env n (PostListFolder quotes_folder token) with
      | Some _ => []
      | None =>
          List.map localized
            (sorted_by_date
               (scanned customerId token (files w0) (S n)
                  (metadata_files (files w0))))
      end
  end.

(** What [loadCustomerLogo] resolves to, in every world. *)
Definition customer_logo (customerId : string) (w : World)
  : result value * World :=
  match getValidToken env w with
  | (Throw _, w0) => (Ok VNull, w0)
  | (Ok token, w0) =>
      let c := PostDownload (VStr (logo_metadata_path customerId)) token in
      (match reject env (List.length (trace w0)) c with
       | Some _ => Ok VNull
       | None =>
           match files w0 !! path_lower (logo_metadata_path customerId) with
           | None => Ok VNull
           | Some f =>
               match JSON_parse (file_content f) with
               | Ok logoData => Ok logoData
               | Throw _ => Ok VNull
               end
           end
       end, posted env w0 c)
  end.

End Vocabulary.

(** * A reference runtime

    An executable instance of [Builtins], used to run the service on
    concrete inputs: JSON text with two-space indentation, ISO 8601
    timestamps, the en-US locale in the UTC time zone, and an abridged
    HTML template. *)
Module Reference.

(** *** JSON text *)

(** The line feed and the double quote, as strings. *)
Definition nl : string := String (ascii_of_nat 10) EmptyString.
Definition dq : string := String (ascii_of_nat 34) EmptyString.

(** The escapes of [JSON.stringify]: the quote, the backslash and the
    control characters. *)
Definition hex_digit (n : nat) : ascii :=
  ascii_of_nat (if (n <? 10)%nat then 48 + n else 87 + n).

Definition escape_char (c : ascii) : string :=
  let n := nat_of_ascii c in
  if (n =? 34)%nat then "\" +:+ dq
  else if (n =? 92)%nat then "\\"
  else if (n =? 8)%nat then "\b"
  else if (n =? 9)%nat then "\t"
  else if (n =? 10)%nat then "\n"
  else if (n =? 12)%nat then "\f"
  else if (n =? 13)%nat then "\r"
  else if (n <? 32)%nat then
    "\u00" +:+ String (hex_digit (n / 16))
                 (String (hex_digit (n mod 16)) EmptyString)
  else String c EmptyString.

Fixpoint escape (s : string) : string :=
  match s with
  | EmptyString => EmptyString
  | String c rest => escape_char c +:+ escape rest
  end.

Definition quote (s : string) : string := dq +:+ escape s +:+ dq.

(** [JSON.stringify(v, null, 2)] at the indentation [indent]: a property
    bound to [undefined] is left out, an [undefined] element is printed
    as [null] (and so is [undefined] itself, which [JSON.stringify] does
    not print). *)
Fixpoint stringify_at (indent : string) (v : value) : string :=
  let inner := indent +:+ "  " in
  match v with
  | VUndef | VNull => "null"
  | VBool true => "true"
  | VBool false => "false"
  | VNum n => pretty n
  | VStr s => quote s
  | VArr xs =>
      match xs with
      | [] => "[]"
      | _ =>
          "[" +:+ nl
          +:+ String.concat ("," +:+ nl)
                (List.map (fun x => inner +:+ stringify_at inner x) xs)
          +:+ nl +:+ indent +:+ "]"
      end
  | VObj kvs =>
      let props :=
        List.flat_map
          (fun kv =>
             match kv with
             | (_, VUndef) => []
             | (k, x) => [inner +:+ quote k +:+ ": " +:+ stringify_at inner x]
             end) kvs in
      match props with
      | [] => "{}"
      | _ =>
          "{" +:+ nl +:+ String.concat ("," +:+ nl) props
          +:+ nl +:+ indent +:+ "}"
      end
  end.

Definition stringify (v : value) : string := stringify_at "" v.

(** [JSON.parse], by recursive descent; [fuel] bounds the number of
    nested calls. *)
Definition is_ws (c : ascii) : bool :=
  let n := nat_of_ascii c in
  ((n =? 32) || (n =? 9) || (n =? 10) || (n =? 13))%nat.

Fixpoint skip_ws (s : string) : string :=
  match s with
  | String c rest => if is_ws c then skip_ws rest else s
  | EmptyString => s
  end.

Definition digit_of (c : ascii) : option Z :=
  let n := nat_of_ascii c in
  if ((48 <=? n) && (n <=? 57))%nat then Some (Z.of_nat (n - 48)) else None.

Definition hex_of (c : ascii) : option nat :=
  let n := nat_of_ascii c in
  if ((48 <=? n) && (n <=? 57))%nat then Some (n - 48)%nat
  else if ((97 <=? n) && (n <=? 102))%nat then Some (n - 87)%nat
  else if ((65 <=? n) && (n <=? 70))%nat then Some (n - 55)%nat
  else None.

(** Decimal digits, most significant first: the value read so far, how
    many digits were read, and the rest of the text. *)
Fixpoint read_digits (s : string) (acc : Z) (count : nat)
  : Z * nat * string :=
  match s with
  | String c rest =>
      match digit_of c with
      | Some d => read_digits rest (acc * 10 + d) (S count)
      | None => (acc, count, s)
      end
  | EmptyString => (acc, count, s)
  end.

Definition starts_fraction (s : string) : bool :=
  match s with
  | String c _ =>
      let n := nat_of_ascii c in ((n =? 46) || (n =? 101) || (n =? 69))%nat
  | EmptyString => false
  end.

(** An integer literal without leading zeros; a fraction or an exponent
    is outside the number model and is refused. *)
Definition parse_int (s : string) : option (Z * string) :=
  let '(neg, body) :=
    match s with
    | String "-" rest => (true, rest)
    | _ => (false, s)
    end in
  let '(n, count, rest) := read_digits body 0 0 in
  let leading_zero :=
    match body with
    | String "0" _ => (1 <? count)%nat
    | _ => false
    end in
  if (count =? 0)%nat || leading_zero || starts_fraction rest then None
  else Some (if neg then - n else n, rest).

(** The character an escape letter stands for. *)
Definition unescape (e : ascii) : option nat :=
  let n := nat_of_ascii e in
  if ((n =? 34) || (n =? 92) || (n =? 47))%nat then Some n
  else if (n =? 98)%nat then Some 8%nat
  else if (n =? 102)%nat then Some 12%nat
  else if (n =? 110)%nat then Some 10%nat
  else if (n =? 114)%nat then Some 13%nat
  else if (n =? 116)%nat then Some 9%nat
  else None.

(** The characters of a string literal after its opening quote. *)
Fixpoint parse_chars (s : string) : option (string * string) :=
  match s with
  | EmptyString => None
  | String c rest =>
      if (nat_of_ascii c =? 34)%nat then Some (EmptyString, rest)
      else if (nat_of_ascii c =? 92)%nat then
        match rest with
        | String "u" (String h1 (String h2 (String h3 (String h4 rest')))) =>
            match hex_of h1, hex_of h2, hex_of h3, hex_of h4 with
            | Some 0%nat, Some 0%nat, Some a, Some b =>
                match parse_chars rest' with
                | Some (t, r) =>
                    Some (String (ascii_of_nat (16 * a + b)) t, r)
                | None => None
                end
            | _, _, _, _ => None
            end
        | String e rest' =>
            match unescape e with
            | Some x =>
                match parse_chars rest' with
                | Some (t, r) => Some (String (ascii_of_nat x) t, r)
                | None => None
                end
            | None => None
            end
        | EmptyString => None
        end
      else if (nat_of_ascii c <? 32)%nat then None
      else
        match parse_chars rest with
        | Some (t, r) => Some (String c t, r)
        | None => None
        end
  end.

(** [s] without its prefix [p], if it starts with it. *)
Fixpoint drop_prefix (p s : string) : option string :=
  match p with
  | EmptyString => Some s
  | String a p' =>
      match s with
      | String b s' => if Ascii.eqb a b then drop_prefix p' s' else None
      | EmptyString => None
      end
  end.

Definition literal (p : string) (v : value) (s : string)
  : option (value * string) :=
  match drop_prefix p s with
  | Some r => Some (v, r)
  | None => None
  end.

Fixpoint parse_value (fuel : nat) (s : string) : option (value * string) :=
  match fuel with
  | O => None
  | S fuel' =>
      match skip_ws s with
      | EmptyString => None
      | String c rest as t =>
          let n := nat_of_ascii c in
          if (n =? 110)%nat then literal "null" VNull t
          else if (n =? 116)%nat then literal "true" (VBool true) t
          else if (n =? 102)%nat then literal "false" (VBool false) t
          else if (n =? 34)%nat then
            match parse_chars rest with
            | Some (str, r) => Some (VStr str, r)
            | None => None
            end
          else if (n =? 91)%nat then
            match skip_ws rest with
            | String "]" r => Some (VArr [], r)
            | t' =>
                match parse_elements fuel' t' with
                | Some (xs, r) => Some (VArr xs, r)
                | None => None
                end
            end
          else if (n =? 123)%nat then
            match skip_ws rest with
            | String "}" r => Some (VObj [], r)
            | t' =>
                match parse_members fuel' t' with
                | Some (kvs, r) =>
                    Some (VObj (fold_left
                                  (fun acc kv => set_key kv.1 kv.2 acc)
                                  kvs []), r)
                | None => None
                end
            end
          else
            match parse_int t with
            | Some (n, r) => Some (VNum n, r)
            | None => None
            end
      end
  end
with parse_elements (fuel : nat) (s : string)
  : option (list value * string) :=
  match fuel with
  | O => None
  | S fuel' =>
      match parse_value fuel' s with
      | Some (x, r) =>
          match skip_ws r with
          | String "," r' =>
              match parse_elements fuel' r' with
              | Some (xs, r'') => Some (x :: xs, r'')
              | None => None
              end
          | String "]" r' => Some ([x], r')
          | _ => None
          end
      | None => None
      end
  end
with parse_members (fuel : nat) (s : string)
  : option (list (string * value) * string) :=
  match fuel with
  | O => None
  | S fuel' =>
      match skip_ws s with
      | String c rest =>
          if (nat_of_ascii c =? 34)%nat then
            match parse_chars rest with
            | Some (k, r) =>
                match skip_ws r with
                | String ":" r' =>
                    match parse_value fuel' r' with
                    | Some (x, r'') =>
                        match skip_ws r'' with
                        | String "," r3 =>
                            match parse_members fuel' r3 with
                            | Some (kvs, r4) => Some ((k, x) :: kvs, r4)
                            | None => None
                            end
                        | String "}" r3 => Some ([(k, x)], r3)
                        | _ => None
                        end
                    | None => None
                    end
                | _ => None
                end
            | None => None
            end
          else None
      | EmptyString => None
      end
  end.

Definition parse (s : string) : result value :=
  match parse_value (2 * String.length s + 2) s with
  | Some (v, r) =>
      match skip_ws r with
      | EmptyString => Ok v
      | _ => Throw "Unexpected non-whitespace character after JSON"
      end
  | None => Throw "Unexpected token in JSON"
  end.

(** *** Notions for the round trip of JSON text *)

(** What may follow a value in JSON text: nothing, or a character that
    does not continue a number. *)
Definition delimited (rest : string) : Prop :=
  match rest with
  | EmptyString => True
  | String c _ => digit_of c = None /\ starts_fraction rest = false
  end.

(** A string the parser skips over. *)
Definition blank (i : string) : Prop :=
  forall t, skip_ws (i +:+ t) = skip_ws t.

(** The characters a value can start with. *)
Definition is_num_head (c : ascii) : bool :=
  let n := nat_of_ascii c in
  ((n =? 45) || (48 <=? n) && (n <=? 57))%nat.

Definition is_value_head (c : ascii) : bool :=
  let n := nat_of_ascii c in
  ((n =? 110) || (n =? 116) || (n =? 102) || (n =? 34) || (n =? 91)
   || (n =? 123))%nat || is_num_head c.

(** The double quote character. *)
Definition dq_char : ascii :=
  Ascii false true false false false true false false.

(** What reading back the text of a value yields: [undefined], which is
    printed as [null], reads back as [null]. *)
Definition clean1 (x : value) : value :=
  match x with
  | VUndef => VNull
  | _ => json_clean x
  end.

(** The text of [v] at any indentation, followed by anything that can
    follow a value, reads back as what is left of [v]. *)
Definition reads_back (v : value) : Prop :=
  forall indent rest fuel,
    blank indent -> delimited rest ->
    (2 * String.length (stringify_at indent v) + 1 <= fuel)%nat ->
    parse_value fuel (stringify_at indent v +:+ rest) = Some (clean1 v, rest).

(** The lines of the elements of an array and of the members of an
    object, at the indentation [inner]. *)
Definition element_text (inner : string) (x : value) : string :=
  inner +:+ stringify_at inner x.

Definition elements_text (inner : string) (xs : list value) : string :=
  String.concat ("," +:+ nl) (List.map (element_text inner) xs).

Definition member_text (inner : string) (kv : string * value) : string :=
  inner +:+ quote kv.1 +:+ ": " +:+ stringify_at inner kv.2.

Definition members_text (inner : string) (ps : list (string * value))
  : string :=
  String.concat ("," +:+ nl) (List.map (member_text inner) ps).

Definition is_undef (x : value) : bool :=
  match x with VUndef => true | _ => false end.

(** The properties that survive serialisation. *)
Definition defined (kvs : list (string * value)) : list (string * value) :=
  List.filter (fun kv => negb (is_undef kv.2)) kvs.

(** Every object in the value has distinct keys. *)
Fixpoint unique_keys (v : value) : bool :=
  match v with
  | VArr xs => forallb unique_keys xs
  | VObj kvs =>
      bool_decide (NoDup (List.map fst kvs))
      && forallb (fun kv => unique_keys kv.2) kvs
  | _ => true
  end.

(** *** Numbers and dates *)

(** [Number(s)] for an optionally signed decimal integer; the empty
    string is zero. *)
Definition string_to_number (s : string) : option Z :=
  match s with
  | EmptyString => Some 0
  | String "-" rest =>
      match read_digits rest 0 0 with
      | (n, S _, EmptyString) => Some (- n)
      | _ => None
      end
  | _ =>
      match read_digits s 0 0 with
      | (n, S _, EmptyString) => Some n
      | _ => None
      end
  end.

(** Days since 1970-01-01 of a date of the proleptic Gregorian calendar,
    and back. *)
Definition days_from_civil (y m d : Z) : Z :=
  let y' := if m <=? 2 then y - 1 else y in
  let era := y' / 400 in
  let yoe := y' - era * 400 in
  let doy := (153 * (if 2 <? m then m - 3 else m + 9) + 2) / 5 + d - 1 in
  let doe := yoe * 365 + yoe / 4 - yoe / 100 + doy in
  era * 146097 + doe - 719468.

Definition civil_from_days (z : Z) : Z * Z * Z :=
  let z' := z + 719468 in
  let era := z' / 146097 in
  let doe := z' - era * 146097 in
  let yoe := (doe - doe / 1460 + doe / 36524 - doe / 146096) / 365 in
  let doy := doe - (365 * yoe + yoe / 4 - yoe / 100) in
  let mp := (5 * doy + 2) / 153 in
  let d := doy - (153 * mp + 2) / 5 + 1 in
  let m := if mp <? 10 then mp + 3 else mp - 9 in
  let y := yoe + era * 400 in
  (if m <=? 2 then y + 1 else y, m, d).

Definition ms_per_day : Z := 86400000.

(** Exactly [count] decimal digits. *)
Fixpoint fixed_digits (count : nat) (s : string) (acc : Z)
  : option (Z * string) :=
  match count with
  | O => Some (acc, s)
  | S count' =>
      match s with
      | String c rest =>
          match digit_of c with
          | Some d => fixed_digits count' rest (acc * 10 + d)
          | None => None
          end
      | EmptyString => None
      end
  end.

Definition expect (c : ascii) (s : string) : option string :=
  match s with
  | String c' rest => if Ascii.eqb c c' then Some rest else None
  | EmptyString => None
  end.

(** [Date.parse] of the formats [YYYY-MM-DD] and
    [YYYY-MM-DDTHH:mm:ss.sssZ]; any other text is NaN. *)
Definition date_parse (s : string) : option Z :=
  '(y, s1) ← fixed_digits 4 s 0;
  s2 ← expect "-" s1;
  '(m, s3) ← fixed_digits 2 s2 0;
  s4 ← expect "-" s3;
  '(d, s5) ← fixed_digits 2 s4 0;
  if negb ((1 <=? m) && (m <=? 12) && (1 <=? d) && (d <=? 31)) then None
  else
    let day := days_from_civil y m d * ms_per_day in
    match s5 with
    | EmptyString => Some day
    | _ =>
        s6 ← expect "T" s5;
        '(hh, s7) ← fixed_digits 2 s6 0;
        s8 ← expect ":" s7;
        '(mm, s9) ← fixed_digits 2 s8 0;
        s10 ← expect ":" s9;
        '(ss, s11) ← fixed_digits 2 s10 0;
        s12 ← expect "." s11;
        '(ms, s13) ← fixed_digits 3 s12 0;
        s14 ← expect "Z" s13;
        match s14 with
        | EmptyString =>
            if (hh <=? 23) && (mm <=? 59) && (ss <=? 59)
            then Some (day + ((hh * 60 + mm) * 60 + ss) * 1000 + ms)
            else None
        | _ => None
        end
    end.

(** [n] in decimal, padded with zeros to [width] digits. *)
Definition pad (width : nat) (n : Z) : string :=
  let digits := pretty n in
  String.concat "" (replicate (width - String.length digits) "0") +:+ digits.

(** [toISOString] for the years 0 to 9999. *)
Definition to_iso_string (t : Z) : string :=
  let '(y, m, d) := civil_from_days (t / ms_per_day) in
  let r := t mod ms_per_day in
  pad 4 y +:+ "-" +:+ pad 2 m +:+ "-" +:+ pad 2 d +:+ "T"
  +:+ pad 2 (r / 3600000) +:+ ":" +:+ pad 2 (r / 60000 mod 60) +:+ ":"
  +:+ pad 2 (r / 1000 mod 60) +:+ "." +:+ pad 3 (r mod 1000) +:+ "Z".

(** [toLocaleDateString] in the en-US locale and the UTC time zone. *)
Definition to_locale_date_string (t : Z) : string :=
  let '(y, m, d) := civil_from_days (t / ms_per_day) in
  pretty m +:+ "/" +:+ pretty d +:+ "/" +:+ pretty y.

(** *** The template, abridged *)

Definition abridged_location (number : Z) (name width height quantity : value)
  : string :=
  "<div class=location-item>" +:+ pretty number +:+ " " +:+ ToString name
  +:+ " " +:+ ToString width +:+ "x" +:+ ToString height +:+ " qty "
  +:+ ToString quantity +:+ "</div>".

Definition abridged_quote (quoteData data : value)
    (locationHtml : option string) (now : Z) : string :=
  "<title>DTF Quote: " +:+ ToString (prop quoteData "quote_name")
  +:+ "</title>"
  +:+ default "<div class=location-item>No Location Data</div>"
        locationHtml.

#[export] Instance builtins : Builtins := {|
  JSON_stringify := stringify;
  JSON_parse := parse;
  Date_parse := date_parse;
  toLocaleDateString := to_locale_date_string;
  toISOString := to_iso_string;
  StringToNumber := string_to_number;
  quote_template := abridged_quote;
  location_template := abridged_location
|}.

End Reference.

(** * Concrete worlds

    Environments and worlds on which the service is run in the closed
    examples below. *)
Module Scenario.
Import Reference.

(** A transport that rejects nothing; the token endpoint grants a
    four-hour token and the sharing endpoint a link. *)
Definition quiet : Env := {|
  reject := fun _ _ => None;
  reply := fun _ c =>
    match c with
    | PostToken _ _ _ =>
        VObj [("access_token", VStr "token-1"); ("expires_in", VNum 14400)]
    | PostCreateLink _ _ =>
        VObj [("url", VStr "https://www.dropbox.com/s/abc/quote.html?dl=0")]
    | _ => VObj []
    end;
  latency := fun _ => 5
|}.

(** The token endpoint answers 200 with a body that lacks [expires_in]. *)
Definition malformed : Env := {|
  reject := fun _ _ => None;
  reply := fun _ _ => VObj [("access_token", VStr "token-2")];
  latency := fun _ => 5
|}.

(** Every request is rejected. *)
Definition offline : Env := {|
  reject := fun _ _ => Some "Network Error";
  reply := fun _ _ => VUndef;
  latency := fun _ => 5
|}.

Definition noon : Z := 1705320000000.

(** A service that has never refreshed, and one holding a token that is
    valid for another hour. *)
Definition cold : Service := {|
  appKey := Some "app-key";
  appSecret := Some "app-secret";
  refreshToken := Some "refresh-token";
  accessToken := VNull;
  tokenExpiresAt := None
|}.

Definition warm : Service := {|
  appKey := Some "app-key";
  appSecret := Some "app-secret";
  refreshToken := Some "refresh-token";
  accessToken := VStr "token-0";
  tokenExpiresAt := Some (Some (noon + 3600000))
|}.

Definition world_of (s : Service) (fs : gmap string File) : World :=
  {| svc := s; files := fs; clock := noon; trace := [] |}.

(** The quote of the save scenario of the specification. *)
Definition order1 : value :=
  VObj [("id", VStr "q1"); ("quote_name", VStr "Order #1");
        ("customer_id", VStr "c1"); ("total_transfers", VNum 50)].

Definition or_undef (r : result value) : value :=
  match r with Ok v => v | Throw _ => VUndef end.


(** Three quotes, two of customer [A] and one of customer [B], saved one
    after the other. *)
Definition quote_of (id customer created : string) : value :=
  VObj [("id", VStr id); ("quote_name", VStr ("Quote " +:+ id));
        ("customer_id", VStr customer); ("date_created", VStr created)].

Definition quote_a1 : value := quote_of "a1" "A" "2024-01-10T09:00:00.000Z".
Definition quote_a2 : value := quote_of "a2" "A" "2024-01-12T09:00:00.000Z".
Definition quote_b1 : value := quote_of "b1" "B" "2024-01-11T09:00:00.000Z".

Definition three_saved : World :=
  (saveQuote quiet quote_b1 (VBool false)
     (saveQuote quiet quote_a2 (VBool false)
        (saveQuote quiet quote_a1 (VBool false) (world_of cold ∅)).2).2).2.

(** The stored metadata file of a quote, its folder entry, and the
    record it holds. *)
Definition stored_file (w : World) (id : string) : File :=
  default {| file_display := ""; file_content := "" |}
    (files w !! path_lower (metadata_path (VStr id))).

Definition stored_entry (id : string) : Entry :=
  {| entry_name := id +:+ "_metadata.json";
     entry_path_lower := path_lower (metadata_path (VStr id)) |}.

Definition stored_record (w : World) (id : string) : value :=
  or_undef (JSON_parse (file_content (stored_file w id))).


(** Both sharing endpoints answer with a conflict; everything else is
    as in [quiet]. *)
Definition sharing_down : Env := {|
  reject := fun _ c =>
    match c with
    | PostCreateLink _ _ | PostListLinks _ _ =>
        Some "Request failed with status code 409"
    | _ => None
    end;
  reply := reply quiet;
  latency := latency quiet
|}.

(** A metadata file whose text is not JSON. *)
Definition broken_entry : Entry := stored_entry "zz".
Definition broken_file : File :=
  {| file_display := metadata_path (VStr "zz");
     file_content := "{ not json" |}.
Definition with_broken_file (w : World) : World :=
  {| svc := svc w;
     files := <[entry_path_lower broken_entry := broken_file]> (files w);
     clock := clock w;
     trace := trace w |}.

(** Downloads are answered with a server error; everything else is as
    in [quiet]. *)
Definition downloads_down : Env := {|
  reject := fun _ c =>
    match c with
    | PostDownload _ _ => Some "Request failed with status code 500"
    | _ => None
    end;
  reply := reply quiet;
  latency := latency quiet
|}.

(** A service constructed without a refresh token. *)
Definition unconfigured : Service :=
  new_DropboxService (Some "app-key") (Some "app-secret") None.

(** A logo record, and the world after saving it for customer [c1]. *)
Definition logo1 : value :=
  VObj [("filename", VStr "logo.png"); ("width", VNum 120)].

Definition logo_saved : World :=
  (saveCustomerLogo quiet "c1" logo1 (world_of cold ∅)).2.


(** The metadata of a quote cannot be written or removed: uploads and
    deletes addressed to a metadata file are answered with a server
    error; everything else is as in [quiet]. *)
Definition metadata_down : Env := {|
  reject := fun _ c =>
    match c with
    | PostUpload path _ _ =>
        if endsWith path "_metadata.json"
        then Some "Request failed with status code 500" else None
    | PostDelete (VStr path) _ =>
        if endsWith path "_metadata.json"
        then Some "Request failed with status code 500" else None
    | _ => None
    end;
  reply := reply quiet;
  latency := latency quiet
|}.

(** The sharing endpoint refuses to create a link (one exists) and
    lists the existing one. *)
Definition link_exists : Env := {|
  reject := fun _ c =>
    match c with
    | PostCreateLink _ _ => Some "Request failed with status code 409"
    | _ => None
    end;
  reply := fun _ c =>
    match c with
    | PostListLinks _ _ =>
        VObj [("links",
               VArr [VObj [("url",
                            VStr "https://www.dropbox.com/s/abc/q.html?dl=0"
                           )]])]
    | _ => reply quiet 0%nat c
    end;
  latency := latency quiet
|}.

(** Requests to the routes. *)
Definition save_request (quoteData : value) : Request :=
  {| req_params := []; req_query := [];
     req_body := VObj [("quoteData", quoteData)] |}.

Definition quote_request (quoteId : string) (query : list (string * value))
  : Request :=
  {| req_params := [("quoteId", quoteId)]; req_query := query;
     req_body := VObj [] |}.

Definition customer_request (customerId : string) : Request :=
  {| req_params := [("customerId", customerId)]; req_query := [];
     req_body := VObj [] |}.

(** A quote with an identifier and no name. *)
Definition nameless : value := VObj [("id", VStr "q2")].


End Scenario.

(** * Properties *)

(** Closed examples run on the reference runtime. *)
#[local] Existing Instance Reference.builtins.

(** Unfolds the monadic plumbing so that a computation applied to a
    world reduces to its outcome. *)
Ltac run :=
  cbv beta delta [bind ret throw try_catch lift get_svc put_svc put_files
                  get_files Date_now axios_post posted files_upload
                  files_download files_delete_v2 files_list_folder] in *;
  cbn beta iota zeta in *.

(** ** The reference runtime reads back the JSON text it prints *)

Module ReferenceCodec.
Import Reference.

Lemma append_cons (x : ascii) (a b : string) :
  String x a +:+ b = String x (a +:+ b).
Proof. reflexivity. Qed.

Lemma append_empty_l (b : string) : "" +:+ b = b.
Proof. reflexivity. Qed.

Lemma length_append (a b : string) :
  String.length (a +:+ b) = (String.length a + String.length b)%nat.
Proof.
  induction a as [|c a IH]; [reflexivity|].
  rewrite append_cons. simpl. rewrite IH. reflexivity.
Qed.

Lemma append_assoc (a b c : string) : (a +:+ b) +:+ c = a +:+ (b +:+ c).
Proof.
  induction a as [|x a IH]; [reflexivity|].
  rewrite !append_cons, IH. reflexivity.
Qed.

Lemma append_empty_r (a : string) : a +:+ "" = a.
Proof.
  induction a as [|x a IH]; [reflexivity|].
  rewrite append_cons, IH. reflexivity.
Qed.

Lemma substring_all (s : string) : String.substring 0 (String.length s) s = s.
Proof. induction s as [|c s IH]; simpl; [reflexivity|]. rewrite IH. reflexivity. Qed.

(** Escaped text reads back. *)
Lemma parse_chars_escape (s rest : string) :
  parse_chars (escape s +:+ dq +:+ rest) = Some (s, rest).
Proof.
  induction s as [|c s IH]; [reflexivity|].
  change (escape (String c s)) with (escape_char c +:+ escape s).
  rewrite append_assoc.
  destruct c as [b0 b1 b2 b3 b4 b5 b6 b7].
  destruct b0, b1, b2, b3, b4, b5, b6, b7;
    match goal with
    | |- context [escape_char ?c] =>
        let e := eval vm_compute in (escape_char c) in
        change (escape_char c) with e
    end;
    rewrite ?append_cons, ?append_empty_l;
    cbn [parse_chars]; cbn -[parse_chars String.append]; rewrite IH; reflexivity.
Qed.

(** ** Numbers *)

Lemma digit_of_pretty_N_char (d : N) :
  (d < 10)%N -> digit_of (pretty_N_char d) = Some (Z.of_N d).
Proof.
  intros Hd.
  assert (d = 0 \/ d = 1 \/ d = 2 \/ d = 3 \/ d = 4 \/ d = 5 \/ d = 6
          \/ d = 7 \/ d = 8 \/ d = 9)%N as Hcases by lia.
  repeat (destruct Hcases as [-> | Hcases]; [reflexivity|]).
  subst. reflexivity.
Qed.

(** Reading the digits that [pretty_N_go] put in front of [s]. *)
Lemma read_digits_pretty_N_go (x : N) :
  exists k : nat,
    ((0 < x)%N -> (0 < k)%nat)
    /\ forall s acc count,
         read_digits (pretty_N_go x s) acc count
         = read_digits s (acc * 10 ^ Z.of_nat k + Z.of_N x) (count + k).
Proof.
  induction (N.lt_wf_0 x) as [x _ IH].
  destruct (N.eq_dec x 0%N) as [-> | Hx].
  - exists 0%nat. split; [lia|]. intros s acc count.
    rewrite pretty_N_go_0, Nat.add_0_r. f_equal. simpl. lia.
  - assert (0 < x)%N as Hpos by lia.
    destruct (IH (x `div` 10)%N) as (k & _ & Hk).
    { apply N.div_lt; lia. }
    exists (S k). split; [lia|]. intros s acc count.
    rewrite pretty_N_go_step by exact Hpos. rewrite Hk.
    cbn [read_digits].
    rewrite digit_of_pretty_N_char by (apply N.mod_lt; lia).
    f_equal; [|lia].
    rewrite Nat2Z.inj_succ, Z.pow_succ_r by lia.
    pose proof (N.div_mod x 10%N ltac:(lia)) as Hdm.
    rewrite Hdm at 3. rewrite N2Z.inj_add, N2Z.inj_mul. simpl Z.of_N. lia.
Qed.

Lemma pretty_N_go_append (x : N) : forall s r,
  pretty_N_go x s +:+ r = pretty_N_go x (s +:+ r).
Proof.
  induction (N.lt_wf_0 x) as [x _ IH]. intros s r.
  destruct (N.eq_dec x 0%N) as [-> | Hx].
  - rewrite !pretty_N_go_0. reflexivity.
  - rewrite (pretty_N_go_step x s), (pretty_N_go_step x (s +:+ r)) by lia.
    rewrite IH by (apply N.div_lt; lia). reflexivity.
Qed.

(** The first digit of a positive number is not a zero (nor a sign). *)
Lemma pretty_N_go_head (x : N) : forall s,
  (0 < x)%N ->
  exists c t, pretty_N_go x s = String c t
              /\ c <> "0"%char /\ c <> "-"%char.
Proof.
  induction (N.lt_wf_0 x) as [x _ IH]. intros s Hpos.
  rewrite pretty_N_go_step by exact Hpos.
  destruct (N.eq_dec (x `div` 10)%N 0%N) as [Hdiv | Hdiv].
  - rewrite Hdiv, pretty_N_go_0. eexists. eexists. split; [reflexivity|].
    assert (x < 10)%N as Hlt.
    { destruct (N.lt_ge_cases x 10%N) as [Hlt | Hge]; [exact Hlt|].
      assert (0 < x `div` 10)%N by (apply N.div_str_pos; lia). lia. }
    rewrite N.mod_small by exact Hlt.
    assert (x = 1 \/ x = 2 \/ x = 3 \/ x = 4 \/ x = 5 \/ x = 6
            \/ x = 7 \/ x = 8 \/ x = 9)%N as Hcases by lia.
    repeat (destruct Hcases as [-> | Hcases]; [split; discriminate|]).
    subst. split; discriminate.
  - apply IH; [apply N.div_lt; lia | apply N.neq_0_lt_0; exact Hdiv].
Qed.

Lemma read_digits_stop rest acc count :
  delimited rest -> read_digits rest acc count = (acc, count, rest).
Proof.
  destruct rest as [|c rest]; simpl; [reflexivity|].
  intros [-> _]. reflexivity.
Qed.

Lemma starts_fraction_delimited rest :
  delimited rest -> starts_fraction rest = false.
Proof. destruct rest; simpl; [reflexivity|]. intros [_ H]. exact H. Qed.

Lemma parse_int_body c t n k rest :
  c <> "-"%char -> c <> "0"%char ->
  read_digits (String c t) 0 0 = (n, k, rest) ->
  (0 < k)%nat -> starts_fraction rest = false ->
  parse_int (String c t) = Some (n, rest)
  /\ parse_int (String "-" (String c t)) = Some (- n, rest).
Proof.
  intros Hdash Hzero Hread Hk Hfrac. unfold parse_int.
  assert (Hcount : (k =? 0)%nat = false) by (apply Nat.eqb_neq; lia).
  destruct c as [[] [] [] [] [] [] [] []];
    try (exfalso; apply Hdash; reflexivity);
    try (exfalso; apply Hzero; reflexivity);
    cbn -[read_digits]; rewrite Hread; cbn -[read_digits];
    rewrite Hcount, Hfrac; split; reflexivity.
Qed.

Lemma parse_int_pretty (n : Z) (rest : string) :
  delimited rest -> parse_int (pretty n +:+ rest) = Some (n, rest).
Proof.
  intros Hrest.
  pose proof (starts_fraction_delimited _ Hrest) as Hfrac.
  destruct n as [|p|p].
  - change (pretty 0) with "0". rewrite append_cons, append_empty_l.
    unfold parse_int. cbn [read_digits].
    change (digit_of "0") with (Some 0). cbn iota beta.
    rewrite read_digits_stop by exact Hrest. simpl.
    rewrite Hfrac. reflexivity.
  - change (pretty (Z.pos p)) with (pretty_N_go (N.pos p) "").
    rewrite pretty_N_go_append, append_empty_l.
    destruct (pretty_N_go_head (N.pos p) rest ltac:(lia))
      as (c & t & Heq & Hzero & Hdash).
    destruct (read_digits_pretty_N_go (N.pos p)) as (k & Hk & Hread).
    specialize (Hk ltac:(lia)).
    specialize (Hread rest 0 0%nat).
    rewrite (read_digits_stop rest) in Hread by exact Hrest.
    rewrite Heq in *.
    apply (parse_int_body c t _ _ _ Hdash Hzero Hread); [lia|exact Hfrac].
  - change (pretty (Z.neg p)) with ("-" +:+ pretty_N_go (N.pos p) "").
    rewrite !append_cons, !append_empty_l.
    rewrite pretty_N_go_append, append_empty_l.
    destruct (pretty_N_go_head (N.pos p) rest ltac:(lia))
      as (c & t & Heq & Hzero & Hdash).
    destruct (read_digits_pretty_N_go (N.pos p)) as (k & Hk & Hread).
    specialize (Hk ltac:(lia)).
    specialize (Hread rest 0 0%nat).
    rewrite (read_digits_stop rest) in Hread by exact Hrest.
    rewrite Heq in *.
    apply (parse_int_body c t _ _ _ Hdash Hzero Hread); [lia|exact Hfrac].
Qed.

Lemma blank_empty : blank "".
Proof. intros t. reflexivity. Qed.

Lemma blank_app i j : blank i -> blank j -> blank (i +:+ j).
Proof. intros Hi Hj t. rewrite append_assoc, Hi, Hj. reflexivity. Qed.

Lemma blank_two_spaces : blank "  ".
Proof. intros t. reflexivity. Qed.

Lemma blank_space : blank " ".
Proof. intros t. reflexivity. Qed.

Lemma blank_nl : blank nl.
Proof. intros t. reflexivity. Qed.

Lemma skip_ws_idem s : skip_ws (skip_ws s) = skip_ws s.
Proof.
  induction s as [|c s IH]; [reflexivity|].
  simpl. destruct (is_ws c) eqn:Hc; [exact IH|].
  simpl. rewrite Hc. reflexivity.
Qed.

Lemma parse_value_skip fuel s : parse_value fuel (skip_ws s) = parse_value fuel s.
Proof. destruct fuel; [reflexivity|]. simpl. rewrite skip_ws_idem. reflexivity. Qed.

Lemma parse_value_blank fuel i s :
  blank i -> parse_value fuel (i +:+ s) = parse_value fuel s.
Proof.
  intros Hi. rewrite <- (parse_value_skip fuel (i +:+ s)), Hi.
  apply parse_value_skip.
Qed.

Lemma parse_elements_skip fuel s :
  parse_elements fuel (skip_ws s) = parse_elements fuel s.
Proof. destruct fuel; [reflexivity|]. simpl. rewrite parse_value_skip. reflexivity. Qed.

Lemma parse_elements_blank fuel i s :
  blank i -> parse_elements fuel (i +:+ s) = parse_elements fuel s.
Proof.
  intros Hi. rewrite <- (parse_elements_skip fuel (i +:+ s)), Hi.
  apply parse_elements_skip.
Qed.

Lemma parse_members_skip fuel s :
  parse_members fuel (skip_ws s) = parse_members fuel s.
Proof. destruct fuel; [reflexivity|]. simpl. rewrite skip_ws_idem. reflexivity. Qed.

Lemma parse_members_blank fuel i s :
  blank i -> parse_members fuel (i +:+ s) = parse_members fuel s.
Proof.
  intros Hi. rewrite <- (parse_members_skip fuel (i +:+ s)), Hi.
  apply parse_members_skip.
Qed.

Lemma pretty_N_go_num_head (x : N) : forall s,
  (0 < x)%N ->
  exists c t, pretty_N_go x s = String c t /\ is_num_head c = true.
Proof.
  induction (N.lt_wf_0 x) as [x _ IH]. intros s Hpos.
  rewrite pretty_N_go_step by exact Hpos.
  destruct (N.eq_dec (x `div` 10)%N 0%N) as [Hdiv | Hdiv].
  - rewrite Hdiv, pretty_N_go_0. eexists. eexists. split; [reflexivity|].
    assert (x `mod` 10 < 10)%N as Hlt by (apply N.mod_lt; lia).
    generalize dependent (x `mod` 10)%N. intros d Hlt.
    assert (d = 0 \/ d = 1 \/ d = 2 \/ d = 3 \/ d = 4 \/ d = 5 \/ d = 6
            \/ d = 7 \/ d = 8 \/ d = 9)%N as Hcases by lia.
    repeat (destruct Hcases as [-> | Hcases]; [reflexivity|]).
    rewrite Hcases. reflexivity.
  - apply IH; [apply N.div_lt; lia | apply N.neq_0_lt_0; exact Hdiv].
Qed.

Lemma pretty_num_head (n : Z) (rest : string) :
  exists c t, pretty n +:+ rest = String c t /\ is_num_head c = true.
Proof.
  destruct n as [|p|p].
  - exists "0"%char, rest. split; reflexivity.
  - change (pretty (Z.pos p)) with (pretty_N_go (N.pos p) "").
    rewrite pretty_N_go_append, append_empty_l.
    apply pretty_N_go_num_head. lia.
  - exists "-"%char. eexists. split; reflexivity.
Qed.

Lemma parse_value_num_head fuel c t :
  is_num_head c = true ->
  parse_value (S fuel) (String c t)
  = match parse_int (String c t) with
    | Some (n, r) => Some (VNum n, r)
    | None => None
    end.
Proof.
  intros Hc.
  destruct c as [[] [] [] [] [] [] [] []]; try discriminate Hc; reflexivity.
Qed.

Lemma parse_value_number fuel n rest :
  delimited rest ->
  parse_value (S fuel) (pretty n +:+ rest) = Some (VNum n, rest).
Proof.
  intros Hrest.
  destruct (pretty_num_head n rest) as (c & t & Heq & Hc).
  rewrite Heq, (parse_value_num_head _ _ _ Hc), <- Heq.
  rewrite (parse_int_pretty _ _ Hrest). reflexivity.
Qed.

Lemma dq_cons t : dq +:+ t = String dq_char t.
Proof. reflexivity. Qed.

Lemma parse_value_quoted fuel t :
  parse_value (S fuel) (String dq_char t)
  = match parse_chars t with
    | Some (str, r) => Some (VStr str, r)
    | None => None
    end.
Proof. reflexivity. Qed.

Lemma parse_value_string fuel s rest :
  parse_value (S fuel) (quote s +:+ rest) = Some (VStr s, rest).
Proof.
  unfold quote. rewrite !append_assoc, dq_cons, parse_value_quoted.
  rewrite parse_chars_escape. reflexivity.
Qed.

Lemma parse_value_null fuel rest :
  parse_value (S fuel) ("null" +:+ rest) = Some (VNull, rest).
Proof. reflexivity. Qed.

Lemma parse_value_true fuel rest :
  parse_value (S fuel) ("true" +:+ rest) = Some (VBool true, rest).
Proof. reflexivity. Qed.

Lemma parse_value_false fuel rest :
  parse_value (S fuel) ("false" +:+ rest) = Some (VBool false, rest).
Proof. reflexivity. Qed.

Lemma stringify_at_array indent x xs :
  stringify_at indent (VArr (x :: xs))
  = "[" +:+ nl +:+ elements_text (indent +:+ "  ") (x :: xs)
    +:+ nl +:+ indent +:+ "]".
Proof. reflexivity. Qed.

Lemma props_defined inner kvs :
  List.flat_map
    (fun kv : string * value =>
       match kv with
       | (_, VUndef) => []
       | (k, x) => [inner +:+ quote k +:+ ": " +:+ stringify_at inner x]
       end) kvs
  = List.map (member_text inner) (defined kvs).
Proof.
  induction kvs as [|[k x] kvs IH]; [reflexivity|].
  cbn [List.flat_map defined List.filter]. fold (defined kvs).
  rewrite IH. destruct x; reflexivity.
Qed.

Lemma json_clean_defined kvs :
  json_clean (VObj kvs)
  = VObj (List.map (fun kv => (kv.1, json_clean kv.2)) (defined kvs)).
Proof.
  cbn [json_clean]. f_equal.
  induction kvs as [|[k x] kvs IH]; [reflexivity|].
  cbn [List.flat_map defined List.filter]. fold (defined kvs).
  rewrite IH. destruct x; reflexivity.
Qed.

Lemma stringify_at_object indent kvs :
  stringify_at indent (VObj kvs)
  = match defined kvs with
    | [] => "{}"
    | _ => "{" +:+ nl +:+ members_text (indent +:+ "  ") (defined kvs)
           +:+ nl +:+ indent +:+ "}"
    end.
Proof.
  cbn [stringify_at]. rewrite props_defined. unfold members_text.
  destruct (defined kvs); reflexivity.
Qed.

Lemma is_value_head_not_ws c : is_value_head c = true -> is_ws c = false.
Proof.
  destruct c as [[] [] [] [] [] [] [] []]; intros Hc;
    try discriminate Hc; reflexivity.
Qed.

Lemma skip_ws_value_head c t :
  is_value_head c = true -> skip_ws (String c t) = String c t.
Proof. intros Hc. simpl. rewrite (is_value_head_not_ws _ Hc). reflexivity. Qed.

Lemma stringify_head indent v rest :
  exists c t, stringify_at indent v +:+ rest = String c t
              /\ is_value_head c = true.
Proof.
  destruct v as [| | [] | n | s | [|x xs] | kvs];
    try (eexists; eexists; split; reflexivity).
  - destruct (pretty_num_head n rest) as (c & t & Heq & Hc).
    exists c, t. split; [exact Heq|].
    unfold is_value_head. rewrite Hc. apply orb_true_r.
  - rewrite stringify_at_object.
    destruct (defined kvs); eexists; eexists; split; reflexivity.
Qed.

Lemma parse_value_bracket fuel s :
  parse_value (S fuel) (String "[" s)
  = match skip_ws s with
    | String "]" r => Some (VArr [], r)
    | t' =>
        match parse_elements fuel t' with
        | Some (xs, r) => Some (VArr xs, r)
        | None => None
        end
    end.
Proof. reflexivity. Qed.

Lemma parse_value_elements fuel s c t :
  skip_ws s = String c t -> is_value_head c = true ->
  parse_value (S fuel) ("[" +:+ s)
  = match parse_elements fuel s with
    | Some (xs, r) => Some (VArr xs, r)
    | None => None
    end.
Proof.
  intros Hskip Hc. rewrite append_cons, append_empty_l, parse_value_bracket.
  rewrite <- (parse_elements_skip fuel s), Hskip.
  destruct c as [[] [] [] [] [] [] [] []]; try discriminate Hc; reflexivity.
Qed.

Lemma parse_value_brace fuel s :
  parse_value (S fuel) (String "{" s)
  = match skip_ws s with
    | String "}" r => Some (VObj [], r)
    | t' =>
        match parse_members fuel t' with
        | Some (kvs, r) =>
            Some (VObj (fold_left (fun acc kv => set_key kv.1 kv.2 acc)
                          kvs []), r)
        | None => None
        end
    end.
Proof. reflexivity. Qed.

Lemma parse_value_members fuel s t :
  skip_ws s = String dq_char t ->
  parse_value (S fuel) ("{" +:+ s)
  = match parse_members fuel s with
    | Some (kvs, r) =>
        Some (VObj (fold_left (fun acc kv => set_key kv.1 kv.2 acc)
                      kvs []), r)
    | None => None
    end.
Proof.
  intros Hskip. rewrite append_cons, append_empty_l, parse_value_brace.
  rewrite <- (parse_members_skip fuel s), Hskip. reflexivity.
Qed.

Lemma delimited_nl t : delimited (nl +:+ t).
Proof. split; reflexivity. Qed.

Lemma delimited_comma t : delimited ("," +:+ t).
Proof. split; reflexivity. Qed.

Lemma parse_elements_S fuel s :
  parse_elements (S fuel) s
  = match parse_value fuel s with
    | Some (x, r) =>
        match skip_ws r with
        | String "," r' =>
            match parse_elements fuel r' with
            | Some (xs, r'') => Some (x :: xs, r'')
            | None => None
            end
        | String "]" r' => Some ([x], r')
        | _ => None
        end
    | None => None
    end.
Proof. reflexivity. Qed.

Lemma elements_text_cons inner x y ys :
  elements_text inner (x :: y :: ys)
  = element_text inner x +:+ ("," +:+ nl) +:+ elements_text inner (y :: ys).
Proof. reflexivity. Qed.

Lemma parse_elements_text inner indent xs :
  xs <> [] -> Forall reads_back xs -> blank inner -> blank indent ->
  forall rest fuel,
    (2 * String.length (elements_text inner xs) + 2 <= fuel)%nat ->
    parse_elements fuel
      (elements_text inner xs +:+ nl +:+ indent +:+ "]" +:+ rest)
    = Some (List.map clean1 xs, rest).
Proof.
  intros Hne Hall Hinner Hindent.
  induction xs as [|x xs IH]; [contradiction|].
  apply Forall_cons in Hall as [Hx Hall].
  intros rest [|fuel] Hfuel; [lia|].
  rewrite parse_elements_S.
  destruct xs as [|y ys].
  - change (elements_text inner [x]) with (inner +:+ stringify_at inner x)
      in *.
    rewrite length_append in Hfuel.
    rewrite append_assoc, (parse_value_blank _ _ _ Hinner).
    rewrite (Hx inner _ fuel Hinner (delimited_nl _)) by lia.
    rewrite (blank_nl _), (Hindent _). reflexivity.
  - rewrite elements_text_cons in *. unfold element_text in *.
    rewrite !length_append in Hfuel.
    change (String.length ",") with 1%nat in Hfuel.
    rewrite !append_assoc, (parse_value_blank _ _ _ Hinner).
    rewrite (Hx inner _ fuel Hinner (delimited_comma _)) by lia.
    change (skip_ws ("," +:+ nl +:+ elements_text inner (y :: ys) +:+ nl
                     +:+ indent +:+ "]" +:+ rest))
      with (String "," (nl +:+ elements_text inner (y :: ys) +:+ nl
                        +:+ indent +:+ "]" +:+ rest)).
    cbn iota. rewrite (parse_elements_blank _ _ _ blank_nl).
    rewrite (IH ltac:(discriminate) Hall rest fuel) by lia.
    reflexivity.
Qed.

Lemma parse_members_quoted fuel s :
  parse_members (S fuel) (String dq_char s)
  = match parse_chars s with
    | Some (k, r) =>
        match skip_ws r with
        | String ":" r' =>
            match parse_value fuel r' with
            | Some (x, r'') =>
                match skip_ws r'' with
                | String "," r3 =>
                    match parse_members fuel r3 with
                    | Some (kvs, r4) => Some ((k, x) :: kvs, r4)
                    | None => None
                    end
                | String "}" r3 => Some ([(k, x)], r3)
                | _ => None
                end
            | None => None
            end
        | _ => None
        end
    | None => None
    end.
Proof. reflexivity. Qed.

(** Reading one member: the key, the colon and the value. *)
Lemma parse_members_member fuel inner k x tail :
  blank inner -> reads_back x -> x <> VUndef -> delimited tail ->
  (2 * String.length (stringify_at inner x) + 1 <= fuel)%nat ->
  parse_members (S fuel) (member_text inner (k, x) +:+ tail)
  = match skip_ws tail with
    | String "," r3 =>
        match parse_members fuel r3 with
        | Some (kvs, r4) => Some ((k, json_clean x) :: kvs, r4)
        | None => None
        end
    | String "}" r3 => Some ([(k, json_clean x)], r3)
    | _ => None
    end.
Proof.
  intros Hinner Hx Hdef Htail Hfuel.
  unfold member_text, quote. cbn [fst snd].
  rewrite !append_assoc, (parse_members_blank _ _ _ Hinner).
  rewrite dq_cons, parse_members_quoted, parse_chars_escape.
  change (skip_ws (": " +:+ stringify_at inner x +:+ tail))
    with (String ":" (" " +:+ stringify_at inner x +:+ tail)).
  cbn iota. rewrite (parse_value_blank _ _ _ blank_space).
  rewrite (Hx inner tail fuel Hinner Htail Hfuel).
  replace (clean1 x) with (json_clean x)
    by (destruct x; try reflexivity; contradiction).
  reflexivity.
Qed.

Lemma members_text_cons inner p q qs :
  members_text inner (p :: q :: qs)
  = member_text inner p +:+ ("," +:+ nl) +:+ members_text inner (q :: qs).
Proof. reflexivity. Qed.

Lemma length_member_text inner kv :
  (String.length (stringify_at inner kv.2)
   <= String.length (member_text inner kv))%nat.
Proof. unfold member_text. rewrite !length_append. lia. Qed.

Lemma parse_members_text inner indent ps :
  ps <> [] ->
  Forall (fun kv : string * value => reads_back kv.2 /\ kv.2 <> VUndef) ps ->
  blank inner -> blank indent ->
  forall rest fuel,
    (2 * String.length (members_text inner ps) + 2 <= fuel)%nat ->
    parse_members fuel
      (members_text inner ps +:+ nl +:+ indent +:+ "}" +:+ rest)
    = Some (List.map (fun kv => (kv.1, json_clean kv.2)) ps, rest).
Proof.
  intros Hne Hall Hinner Hindent.
  induction ps as [|[k x] ps IH]; [contradiction|].
  apply Forall_cons in Hall as [[Hx Hdef] Hall]. cbn [fst snd] in Hx, Hdef.
  intros rest [|fuel] Hfuel; [lia|].
  pose proof (length_member_text inner (k, x)) as Hlen. cbn [snd] in Hlen.
  destruct ps as [|q qs].
  - change (members_text inner [(k, x)]) with (member_text inner (k, x))
      in *.
    rewrite (parse_members_member _ _ _ _ _ Hinner Hx Hdef
               (delimited_nl _)) by lia.
    rewrite (blank_nl _), (Hindent _). reflexivity.
  - rewrite members_text_cons in *.
    rewrite !length_append in Hfuel.
    change (String.length ",") with 1%nat in Hfuel.
    rewrite !append_assoc.
    rewrite (parse_members_member _ _ _ _ _ Hinner Hx Hdef
               (delimited_comma _)) by lia.
    change (skip_ws ("," +:+ nl +:+ members_text inner (q :: qs) +:+ nl
                     +:+ indent +:+ "}" +:+ rest))
      with (String "," (nl +:+ members_text inner (q :: qs) +:+ nl
                        +:+ indent +:+ "}" +:+ rest)).
    cbn iota. rewrite (parse_members_blank _ _ _ blank_nl).
    rewrite (IH ltac:(discriminate) Hall rest fuel) by lia.
    reflexivity.
Qed.

(** Distinct keys are inserted in order. *)
Lemma set_key_fresh k v kvs :
  k ∉ List.map fst kvs -> set_key k v kvs = kvs ++ [(k, v)].
Proof.
  induction kvs as [|[k' v'] kvs IH]; [reflexivity|].
  intros Hnin. apply not_elem_of_cons in Hnin as [Hne Hnin].
  cbn [set_key]. destruct (String.eqb_spec k k') as [->|_]; [contradiction|].
  rewrite (IH Hnin). reflexivity.
Qed.

Lemma fold_set_key l : forall acc,
  NoDup (List.map fst (acc ++ l)) ->
  fold_left (fun acc kv => set_key kv.1 kv.2 acc) l acc = acc ++ l.
Proof.
  induction l as [|[k v] l IH]; intros acc Hnd.
  - rewrite app_nil_r. reflexivity.
  - cbn [fold_left fst snd].
    assert (Hfresh : k ∉ List.map fst acc).
    { rewrite List.map_app in Hnd. apply NoDup_app in Hnd as (_ & Hdis & _).
      intros Hin. apply (Hdis k Hin). left. }
    rewrite (set_key_fresh _ _ _ Hfresh), IH.
    + rewrite <- app_assoc. reflexivity.
    + rewrite <- app_assoc. exact Hnd.
Qed.

Lemma defined_keys_in k kvs :
  k ∈ List.map fst (defined kvs) -> k ∈ List.map fst kvs.
Proof.
  induction kvs as [|[k' x] kvs IH]; [intros H; exact H|].
  cbn [defined List.filter]. fold (defined kvs).
  destruct (negb (is_undef (k', x).2)); cbn [List.map fst].
  - rewrite !elem_of_cons. intros [-> | Hin]; [left; reflexivity|].
    right. apply IH, Hin.
  - intros Hin. apply elem_of_cons. right. apply IH, Hin.
Qed.

Lemma defined_keys_NoDup kvs :
  NoDup (List.map fst kvs) -> NoDup (List.map fst (defined kvs)).
Proof.
  induction kvs as [|[k x] kvs IH]; [intros H; exact H|].
  cbn [List.map fst]. intros Hnd. apply NoDup_cons in Hnd as [Hnin Hnd].
  cbn [defined List.filter]. fold (defined kvs).
  destruct (negb (is_undef (k, x).2)); cbn [List.map fst]; [|apply IH, Hnd].
  apply NoDup_cons. split; [|apply IH, Hnd].
  intros Hin. apply Hnin, defined_keys_in, Hin.
Qed.

Lemma defined_not_undef kvs :
  Forall (fun kv : string * value => kv.2 <> VUndef) (defined kvs).
Proof.
  induction kvs as [|[k x] kvs IH]; [constructor|].
  cbn [defined List.filter]. fold (defined kvs).
  destruct x; cbn [negb is_undef snd]; try exact IH;
    (constructor; [discriminate|exact IH]).
Qed.

Lemma defined_Forall (P : string * value -> Prop) kvs :
  Forall P kvs -> Forall P (defined kvs).
Proof.
  induction kvs as [|kv kvs IH]; [intros H; exact H|].
  intros Hall. apply Forall_cons in Hall as [Hkv Hall].
  cbn [defined List.filter]. fold (defined kvs).
  destruct (negb (is_undef kv.2)); [constructor; [exact Hkv|]|]; apply IH, Hall.
Qed.

Theorem parse_value_stringify : forall v, unique_keys v = true -> reads_back v.
Proof.
  fix IH 1. intros v Hwf indent rest fuel Hindent Hrest Hfuel.
  destruct fuel as [|fuel]; [lia|].
  destruct v as [| | [] | n | s | xs | kvs].
  - apply parse_value_null.
  - apply parse_value_null.
  - apply parse_value_true.
  - apply parse_value_false.
  - apply parse_value_number, Hrest.
  - apply parse_value_string.
  - destruct xs as [|x xs]; [reflexivity|].
    assert (Hall : Forall reads_back (x :: xs)).
    { cbn [unique_keys] in Hwf. clear - IH Hwf.
      induction (x :: xs) as [|y ys IHys]; [constructor|].
      cbn [forallb] in Hwf. apply andb_true_iff in Hwf as [Hy Hys].
      constructor; [apply IH, Hy|apply IHys, Hys]. }
    rewrite stringify_at_array in *.
    pose proof (blank_app _ _ Hindent blank_two_spaces) as Hinner.
    set (inner := indent +:+ "  ") in *. clearbody inner.
    rewrite !length_append in Hfuel.
    change (String.length "[") with 1%nat in Hfuel.
    rewrite !append_assoc.
    assert (Hskip : exists c t,
               skip_ws (nl +:+ elements_text inner (x :: xs)
                        +:+ nl +:+ indent +:+ "]" +:+ rest)
               = String c t /\ is_value_head c = true).
    { rewrite (blank_nl _). destruct xs as [|y ys].
      - change (elements_text inner [x])
          with (inner +:+ stringify_at inner x).
        rewrite !append_assoc, (Hinner _).
        destruct (stringify_head inner x
                    (nl +:+ indent +:+ "]" +:+ rest))
          as (c & t & Hhead & Hc).
        exists c, t. rewrite Hhead. split; [|exact Hc].
        apply skip_ws_value_head, Hc.
      - rewrite elements_text_cons. unfold element_text at 1.
        rewrite !append_assoc, (Hinner _).
        destruct (stringify_head inner x
                    ("," +:+ nl +:+ elements_text inner (y :: ys)
                     +:+ nl +:+ indent +:+ "]" +:+ rest))
          as (c & t & Hhead & Hc).
        exists c, t. rewrite Hhead. split; [|exact Hc].
        apply skip_ws_value_head, Hc. }
    destruct Hskip as (c & t & Hskip & Hc).
    rewrite (parse_value_elements _ _ _ _ Hskip Hc).
    rewrite (parse_elements_blank _ _ _ blank_nl).
    assert (Hne : x :: xs <> []) by (intros Heq; discriminate Heq).
    rewrite (parse_elements_text inner indent (x :: xs) Hne Hall Hinner
               Hindent rest fuel) by lia.
    reflexivity.
  - cbn [unique_keys] in Hwf. apply andb_true_iff in Hwf as [Hnd Hwf].
    apply bool_decide_eq_true in Hnd.
    assert (Hall : Forall (fun kv : string * value => reads_back kv.2) kvs).
    { clear - IH Hwf.
      induction kvs as [|[k y] ys IHys]; [constructor|].
      cbn [forallb] in Hwf. apply andb_true_iff in Hwf as [Hy Hys].
      constructor; [apply IH, Hy|apply IHys, Hys]. }
    unfold clean1. rewrite json_clean_defined.
    rewrite stringify_at_object in *.
    pose proof (defined_keys_NoDup _ Hnd) as Hnd'.
    pose proof (defined_not_undef kvs) as Hdef.
    apply (defined_Forall _ kvs) in Hall.
    destruct (defined kvs) as [|p ps] eqn:Hps; [reflexivity|].
    pose proof (blank_app _ _ Hindent blank_two_spaces) as Hinner.
    set (inner := indent +:+ "  ") in *. clearbody inner.
    rewrite !length_append in Hfuel.
    change (String.length "{") with 1%nat in Hfuel.
    rewrite !append_assoc.
    assert (Hskip : exists t,
               skip_ws (nl +:+ members_text inner (p :: ps)
                        +:+ nl +:+ indent +:+ "}" +:+ rest)
               = String dq_char t).
    { rewrite (blank_nl _). destruct ps as [|q qs].
      - change (members_text inner [p]) with (member_text inner p).
        unfold member_text, quote. rewrite !append_assoc, (Hinner _).
        rewrite dq_cons. eexists. reflexivity.
      - rewrite members_text_cons. unfold member_text at 1, quote.
        rewrite !append_assoc, (Hinner _), dq_cons. eexists. reflexivity. }
    destruct Hskip as (t & Hskip).
    rewrite (parse_value_members _ _ _ Hskip).
    rewrite (parse_members_blank _ _ _ blank_nl).
    assert (Hne : p :: ps <> []) by (intros Heq; discriminate Heq).
    assert (Hboth : Forall (fun kv : string * value =>
                              reads_back kv.2 /\ kv.2 <> VUndef) (p :: ps))
      by (apply Forall_and; split; assumption).
    rewrite (parse_members_text inner indent (p :: ps) Hne Hboth Hinner
               Hindent rest fuel) by lia.
    rewrite (fold_set_key _ []); [reflexivity|].
    rewrite app_nil_l, List.map_map. exact Hnd'.
Qed.

(** [JSON.parse] inverts [JSON.stringify] in the reference runtime, on
    every value whose objects have distinct keys. *)
Theorem parse_stringify v :
  unique_keys v = true -> parse (stringify v) = Ok (clean1 v).
Proof.
  intros Hwf. unfold parse, stringify.
  pose proof (parse_value_stringify v Hwf "" ""
                (2 * String.length (stringify_at "" v) + 2)%nat
                blank_empty I ltac:(lia)) as Hparse.
  rewrite append_empty_r in Hparse. rewrite Hparse. reflexivity.
Qed.


End ReferenceCodec.

Section TokenFacts.
Context `{Builtins} (env : Env).

Lemma token_posts_app t c :
  token_posts (t ++ [c]) = (token_posts t + (if is_token_post c then 1 else 0))%nat.
Proof.
  unfold token_posts. rewrite List.filter_app, List.length_app. simpl.
  destruct (is_token_post c); reflexivity.
Qed.

(** A refresh issues one request to the token endpoint when the
    credentials are configured and none otherwise; it never touches the
    remote files. *)
Lemma refreshAccessToken_trace w :
  trace (refreshAccessToken env w).2 =
    (if configured (svc w)
     then trace w ++ [token_request (svc w)]
     else trace w)
  /\ files (refreshAccessToken env w).2 = files w.
Proof.
  unfold refreshAccessToken, configured. run.
  destruct (falsy_str (appKey (svc w)) || falsy_str (appSecret (svc w))
            || falsy_str (refreshToken (svc w))); simpl; [auto|].
  destruct (reject env _ _); simpl; [auto|].
  destruct (get_prop (reply env _ _) "access_token"); simpl; [|auto].
  destruct (get_prop (reply env _ _) "expires_in"); simpl; [|auto].
  destruct (Date_toISOString _); simpl; auto.
Qed.

End TokenFacts.

(** ** Token lifecycle *)

Section TokenLifecycle.
Context `{Builtins} (env : Env).

Lemma needs_refresh_stale s now :
  spec_stale s now -> needs_refresh s now = true.
Proof.
  unfold needs_refresh, bufferTime.
  intros [Htok | [Hexp | (t & Hexp & Hnow)]].
  - rewrite Htok. reflexivity.
  - rewrite Hexp. apply orb_true_r.
  - rewrite Hexp. apply orb_true_iff. right. apply Z.leb_le. lia.
Qed.

Lemma needs_refresh_fresh s now :
  spec_fresh s now -> needs_refresh s now = false.
Proof.
  unfold needs_refresh, bufferTime.
  intros (Htok & t & Hexp & Hnow).
  rewrite Htok, Hexp. simpl. apply Z.leb_gt. lia.
Qed.

(** C1.  In every stale token state [refreshTokenIfNeeded] runs
    [refreshAccessToken] exactly once and then reads the token back, so
    that exactly one request goes to the token endpoint (none if the
    credentials are missing, in which case the refresh throws before
    posting); in every fresh token state it issues no request and
    returns the held token in an unchanged world. *)
Theorem refreshTokenIfNeeded_refreshes_iff_stale (w : World) :
  (spec_stale (svc w) (clock w) ->
     refreshTokenIfNeeded env w
       = (let* _ := refreshAccessToken env in
          let* s := get_svc in
          ret (accessToken s)) w
     /\ token_posts (trace (refreshTokenIfNeeded env w).2)
        = (token_posts (trace w)
           + (if configured (svc w) then 1 else 0))%nat)
  /\ (spec_fresh (svc w) (clock w) ->
        refreshTokenIfNeeded env w = (Ok (accessToken (svc w)), w)).
Proof.
  split.
  - intros Hstale. apply needs_refresh_stale in Hstale.
    assert (Heq : refreshTokenIfNeeded env w
                  = (let* _ := refreshAccessToken env in
                     let* s := get_svc in
                     ret (accessToken s)) w).
    { unfold refreshTokenIfNeeded. run. rewrite Hstale.
      destruct (refreshAccessToken env w) as [[v|m] w']; reflexivity. }
    split; [exact Heq|].
    rewrite Heq.
    pose proof (refreshAccessToken_trace env w) as [Htr _].
    run. destruct (refreshAccessToken env w) as [[v|m] w']; simpl in *;
      rewrite Htr; destruct (configured (svc w));
      rewrite ?token_posts_app; simpl; lia.
  - intros Hfresh. apply needs_refresh_fresh in Hfresh.
    unfold refreshTokenIfNeeded. run. rewrite Hfresh. reflexivity.
Qed.

End TokenLifecycle.

Lemma refreshTokenIfNeeded_refreshes_iff_stale_witness :
  (refreshTokenIfNeeded Scenario.quiet
     (Scenario.world_of Scenario.cold ∅)
   = (let* _ := refreshAccessToken Scenario.quiet in
      let* s := get_svc in
      ret (accessToken s)) (Scenario.world_of Scenario.cold ∅)
   /\ token_posts
        (trace (refreshTokenIfNeeded Scenario.quiet
                  (Scenario.world_of Scenario.cold ∅)).2) = 1%nat)
  /\ refreshTokenIfNeeded Scenario.quiet
       (Scenario.world_of Scenario.warm ∅)
     = (Ok (VStr "token-0"), Scenario.world_of Scenario.warm ∅).
Proof.
  split.
  - apply (proj1 (refreshTokenIfNeeded_refreshes_iff_stale Scenario.quiet
                    (Scenario.world_of Scenario.cold ∅))).
    left. reflexivity.
  - apply (proj2 (refreshTokenIfNeeded_refreshes_iff_stale Scenario.quiet
                    (Scenario.world_of Scenario.warm ∅))).
    split; [reflexivity|].
    exists (Scenario.noon + 3600000). split; [reflexivity|].
    vm_compute. reflexivity.
Defined.

(** ** Refresh failure *)

Section RefreshFailure.
Context `{Builtins} (env : Env).


End RefreshFailure.



(** ** Facts about the plumbing *)

Section Plumbing.
Context `{Builtins} (env : Env).

Lemma refreshTokenIfNeeded_files w :
  files (refreshTokenIfNeeded env w).2 = files w.
Proof.
  unfold refreshTokenIfNeeded. run.
  destruct (needs_refresh (svc w) (clock w)); [|reflexivity].
  pose proof (refreshAccessToken_trace env w) as [_ Hf].
  destruct (refreshAccessToken env w) as [[v|m] w']; exact Hf.
Qed.

Lemma getValidToken_files w :
  files (getValidToken env w).2 = files w.
Proof.
  unfold getValidToken. run.
  pose proof (refreshTokenIfNeeded_files w) as Hf.
  destruct (refreshTokenIfNeeded env w) as [[v|m] w']; exact Hf.
Qed.

(** The requests of [getValidToken] go to the token endpoint only. *)
Lemma getValidToken_trace w :
  exists ext,
    trace (getValidToken env w).2 = trace w ++ ext
    /\ Forall (fun c => is_token_post c = true) ext.
Proof.
  unfold getValidToken, refreshTokenIfNeeded. run.
  destruct (needs_refresh (svc w) (clock w)).
  - pose proof (refreshAccessToken_trace env w) as [Htr _].
    destruct (refreshAccessToken env w) as [[v|m] w']; simpl in *;
      rewrite Htr; destruct (configured (svc w));
      first [ eexists; split; [reflexivity|]; repeat constructor
            | exists []; rewrite app_nil_r; split; [reflexivity|constructor] ].
  - exists []. rewrite app_nil_r. split; [reflexivity|constructor].
Qed.

Lemma createSharedLink_files path token w :
  files (createSharedLink env path token w).2 = files w.
Proof.
  unfold createSharedLink. run.
  destruct (reject env _ _); simpl.
  - destruct (reject env _ _); simpl; [reflexivity|].
    repeat (match goal with
            | |- context [match ?r with Ok _ => _ | Throw _ => _ end] =>
                destruct r; simpl
            | |- context [if ?b then _ else _] => destruct b; simpl
            end); reflexivity.
  - repeat (match goal with
            | |- context [match ?r with Ok _ => _ | Throw _ => _ end] =>
                destruct r; simpl
            | |- context [match reject env ?n ?c with _ => _ end] =>
                destruct (reject env n c); simpl
            | |- context [if ?b then _ else _] => destruct b; simpl
            end); reflexivity.
Qed.

End Plumbing.

(** ** Saving and loading a quote *)

Lemma json_clean_json : forall v, is_json v = true -> json_clean v = v.
Proof.
  fix IH 1. intros [| | b | n | s | xs | kvs]; simpl; try reflexivity.
  - intros Hxs. f_equal.
    induction xs as [|x xs IHxs]; simpl in *; [reflexivity|].
    apply andb_true_iff in Hxs as [Hx Hxs].
    rewrite (IHxs Hxs), (IH x Hx). destruct x; try reflexivity.
    discriminate.
  - intros Hkvs. f_equal.
    induction kvs as [|[k x] kvs IHkvs]; simpl in *; [reflexivity|].
    apply andb_true_iff in Hkvs as [Hx Hkvs].
    rewrite (IHkvs Hkvs), (IH x Hx). destruct x; try reflexivity.
    discriminate.
Qed.

(** A property of a JSON value is a JSON value or missing. *)
Lemma prop_json q k :
  is_json q = true -> prop q k = VUndef \/ is_json (prop q k) = true.
Proof.
  unfold prop. destruct q as [| | b | n | s | xs | kvs]; simpl; auto.
  - destruct (String.eqb k "length"); auto.
  - destruct (String.eqb k "length"); auto.
  - intros Hkvs. induction kvs as [|[k' x] kvs IHkvs]; simpl in *; auto.
    apply andb_true_iff in Hkvs as [Hx Hkvs].
    destruct (String.eqb k k'); auto.
Qed.

Lemma assoc_not_in k kvs :
  k ∉ List.map fst kvs -> assoc k kvs = None.
Proof.
  induction kvs as [|[k' x] kvs IHkvs]; simpl; [reflexivity|].
  intros Hnin. apply not_elem_of_cons in Hnin as [Hne Hnin].
  destruct (String.eqb_spec k k') as [->|_]; [contradiction|].
  apply IHkvs. exact Hnin.
Qed.

(** Reading a property after serialisation: the properties of an object
    with distinct keys, each a JSON value or [undefined], read the same
    before and after. *)
Lemma get_prop_json_clean k kvs :
  NoDup (List.map fst kvs) ->
  Forall (fun kv => kv.2 = VUndef \/ is_json kv.2 = true) kvs ->
  get_prop (json_clean (VObj kvs)) k = get_prop (VObj kvs) k.
Proof.
  simpl. intros Hnd Hall. f_equal.
  induction kvs as [|[k' x] kvs IHkvs]; simpl in *; [reflexivity|].
  apply NoDup_cons in Hnd as [Hnin Hnd].
  apply Forall_cons in Hall as [Hx Hall]. simpl in Hx.
  specialize (IHkvs Hnd Hall).
  destruct Hx as [-> | Hx].
  - rewrite List.app_nil_l, IHkvs. destruct (String.eqb_spec k k') as [->|Hne];
      [|reflexivity].
    rewrite (assoc_not_in _ _ Hnin). reflexivity.
  - rewrite (json_clean_json _ Hx).
    replace (match x with
             | VUndef => []
             | _ => [(k', x)]
             end) with [(k', x)] by (destruct x; try reflexivity; discriminate).
    cbn [app assoc]. destruct (String.eqb k k'); [reflexivity|exact IHkvs].
Qed.

Section SaveLoad.
Context `{Builtins} (env : Env).

(** A quote whose file name can be generated is not [null] or
    [undefined], so none of its property reads throws. *)
Lemma generateFileName_ok_props q fileName :
  generateFileName q = Ok fileName ->
  forall k, get_prop q k = Ok (prop q k).
Proof.
  intros Hgen k. unfold prop.
  destruct q; try discriminate Hgen; simpl; reflexivity.
Qed.

(** What a successful [saveQuote] has done. *)
Lemma saveQuote_ok_inv q isUpdate w envelope w1 :
  saveQuote env q isUpdate w = (Ok envelope, w1) ->
  exists fileName stamp shareUrl,
    let filePath := "/dtf-quotes/" +:+ fileName in
    let md := saved_metadata q filePath stamp in
    generateFileName q = Ok fileName
    /\ envelope = save_envelope isUpdate (prop q "id") filePath shareUrl md
    /\ (shareUrl = VNull \/ exists u, shareUrl = VStr u)
    /\ files w1 !! path_lower (metadata_path (prop q "id"))
       = Some {| file_display := metadata_path (prop q "id");
                 file_content := JSON_stringify md |}.
Proof.
  unfold saveQuote. run.
  destruct (getValidToken env w) as [[tok|m] w0]; simpl; [|discriminate].
  destruct (generateFileName q) as [fileName|m] eqn:Hgen; simpl;
    [|discriminate].
  pose proof (generateFileName_ok_props _ _ Hgen) as Hprops.
  destruct (generateQuoteHtml q (clock w0)) as [html|m]; simpl;
    [|discriminate].
  unfold uploadFile. run.
  destruct (reject env _ _); simpl; [discriminate|].
  rewrite !Hprops. simpl.
  destruct (reject env _ _); simpl; [discriminate|].
  match goal with
  | |- context [createSharedLink env ?p ?t ?w'] =>
      pose proof (createSharedLink_files env p t w') as Hf;
      destruct (createSharedLink env p t w') as [[u|m] w2]
  end; simpl in *; intros [= <- <-];
    exists fileName; eexists; eexists;
    (split; [reflexivity|]); (split; [reflexivity|]);
    (split; [eauto|]); rewrite Hf; simpl; apply lookup_insert_eq.
Qed.

Lemma saved_metadata_clean q filePath stamp k :
  is_json q = true ->
  get_prop (json_clean (saved_metadata q filePath stamp)) k
  = get_prop (saved_metadata q filePath stamp) k.
Proof.
  intros Hq. apply get_prop_json_clean.
  - simpl. apply (bool_decide_unpack _). vm_compute. reflexivity.
  - repeat (apply Forall_cons; split; [simpl; auto using prop_json|]).
    constructor.
Qed.

(** Loading what was just saved, in any runtime whose [JSON.parse]
    inverts [JSON.stringify] on the saved record. *)
Lemma loadQuote_after_saveQuote
    (q isUpdate : value) (w w1 w2 : World) (envelope md tok : value) :
  is_json q = true ->
  saveQuote env q isUpdate w = (Ok envelope, w1) ->
  get_prop envelope "metadata" = Ok md ->
  JSON_parse (JSON_stringify md) = Ok (json_clean md) ->
  getValidToken env w1 = (Ok tok, w2) ->
  reject env (List.length (trace w2))
    (PostDownload (VStr (metadata_path (prop q "id"))) tok) = None ->
  exists loaded w3,
    loadQuote env (prop q "id") (VStr "json") w1 = (Ok loaded, w3)
    /\ (forall k, get_prop loaded k = get_prop md k)
    /\ (forall k, In k copied_fields -> get_prop loaded k = get_prop q k)
    /\ (exists fileName,
          generateFileName q = Ok fileName
          /\ get_prop loaded "file_path"
             = Ok (VStr ("/dtf-quotes/" +:+ fileName)))
    /\ get_prop loaded "last_updated" = get_prop md "last_updated".
Proof.
  intros Hq Hsave Hmd Hcodec Htok Hrej.
  apply saveQuote_ok_inv in Hsave
    as (fileName & stamp & shareUrl & Hgen & -> & _ & Hfile).
  simpl in Hmd. injection Hmd as <-.
  pose proof (getValidToken_files env w1) as Hfiles.
  rewrite Htok in Hfiles. simpl in Hfiles.
  assert (Hload : loadQuote env (prop q "id") (VStr "json") w1
                  = (Ok (json_clean (saved_metadata q
                           ("/dtf-quotes/" +:+ fileName) stamp)),
                     {| svc := svc w2; files := files w2;
                        clock := clock w2
                                 + latency env (List.length (trace w2));
                        trace := trace w2
                                 ++ [PostDownload
                                       (VStr (metadata_path (prop q "id")))
                                       tok] |})).
  { unfold loadQuote, downloadFile. run. rewrite Htok. simpl.
    rewrite Hrej. simpl. rewrite Hfiles, Hfile. simpl.
    rewrite Hcodec. reflexivity. }
  eexists. eexists. split; [exact Hload|].
  pose proof (generateFileName_ok_props _ _ Hgen) as Hprops.
  assert (Hall : forall k,
             get_prop (json_clean (saved_metadata q
                         ("/dtf-quotes/" +:+ fileName) stamp)) k
             = get_prop (saved_metadata q
                           ("/dtf-quotes/" +:+ fileName) stamp) k)
    by (intros k; apply saved_metadata_clean; exact Hq).
  split; [exact Hall|]. split; [|split].
  - intros k Hk. rewrite Hall, Hprops.
    repeat (destruct Hk as [<- | Hk]; [reflexivity|]). destruct Hk.
  - exists fileName. split; [exact Hgen|]. rewrite Hall. reflexivity.
  - apply Hall.
Qed.


End SaveLoad.

Lemma prop_unique_keys q k :
  Reference.unique_keys q = true -> Reference.unique_keys (prop q k) = true.
Proof.
  unfold prop. destruct q as [| | b | n | s | xs | kvs]; simpl;
    try reflexivity.
  - destruct (String.eqb k "length"); reflexivity.
  - destruct (String.eqb k "length"); reflexivity.
  - intros Hq. apply andb_true_iff in Hq as [_ Hkvs].
    induction kvs as [|[k' x] kvs IHkvs]; simpl in *; [reflexivity|].
    apply andb_true_iff in Hkvs as [Hx Hkvs].
    destruct (String.eqb k k'); [exact Hx|apply IHkvs, Hkvs].
Qed.

(** In the reference runtime the round trip needs no assumption on the
    JSON text: it holds for every quote that came in as JSON with
    distinct keys in each of its objects. *)
Lemma save_then_load_reference
    (env : Env) (q isUpdate : value) (w w1 w2 : World)
    (envelope tok : value) :
  is_json q = true ->
  Reference.unique_keys q = true ->
  saveQuote env q isUpdate w = (Ok envelope, w1) ->
  getValidToken env w1 = (Ok tok, w2) ->
  reject env (List.length (trace w2))
    (PostDownload (VStr (metadata_path (prop q "id"))) tok) = None ->
  exists loaded w3,
    loadQuote env (prop q "id") (VStr "json") w1 = (Ok loaded, w3)
    /\ (forall k, get_prop loaded k = get_prop (prop envelope "metadata") k)
    /\ (forall k, In k copied_fields -> get_prop loaded k = get_prop q k).
Proof.
  intros Hq Hkeys Hsave Htok Hrej.
  destruct (saveQuote_ok_inv env _ _ _ _ _ Hsave)
    as (fileName & stamp & shareUrl & Hgen & Henv & _ & _).
  assert (Hmd : get_prop envelope "metadata"
                = Ok (saved_metadata q ("/dtf-quotes/" +:+ fileName) stamp))
    by (rewrite Henv; reflexivity).
  assert (Hcodec : JSON_parse (JSON_stringify
                     (saved_metadata q ("/dtf-quotes/" +:+ fileName) stamp))
                   = Ok (json_clean
                           (saved_metadata q ("/dtf-quotes/" +:+ fileName)
                              stamp))).
  { apply (ReferenceCodec.parse_stringify
             (saved_metadata q ("/dtf-quotes/" +:+ fileName) stamp)).
    unfold saved_metadata. cbn [Reference.unique_keys forallb snd].
    rewrite !prop_unique_keys by exact Hkeys.
    apply andb_true_iff. split; [|reflexivity].
    apply bool_decide_eq_true. cbn [List.map fst].
    apply (bool_decide_unpack _). vm_compute. reflexivity. }
  destruct (loadQuote_after_saveQuote env q isUpdate w w1 w2 envelope _ tok
              Hq Hsave Hmd Hcodec Htok Hrej)
    as (loaded & w3 & Hload & Hall & Hcopied & _).
  exists loaded, w3. split; [exact Hload|]. split; [|exact Hcopied].
  intros k. rewrite Hall. unfold prop at 1. rewrite Hmd. reflexivity.
Qed.


(** ** Listing the quotes of a customer *)

Lemma get_prop_readable v k : readable v = true -> get_prop v k = Ok (prop v k).
Proof. unfold prop. destruct v; simpl; try discriminate; reflexivity. Qed.

Lemma get_prop_ok_readable v k x : get_prop v k = Ok x -> readable v = true.
Proof. destruct v; simpl; try discriminate; reflexivity. Qed.

Section Listing.
Context `{Builtins} (env : Env).

Lemma scan_file_spec customerId token e quotes w :
  scan_file env customerId token e quotes w
  = (Ok (quotes
         ++ match reject env (List.length (trace w))
                    (PostDownload (VStr (entry_path_lower e)) token) with
            | Some _ => []
            | None => entry_quote customerId (files w) e
            end),
     posted env w (PostDownload (VStr (entry_path_lower e)) token)).
Proof.
  unfold scan_file, downloadFile, entry_quote, posted. run.
  destruct (reject env _ _); simpl; [rewrite app_nil_r; reflexivity|].
  destruct (files w !! _); simpl; [|rewrite app_nil_r; reflexivity].
  destruct (JSON_parse _) as [r|m]; simpl; [|rewrite app_nil_r; reflexivity].
  destruct (get_prop r "customer_id"); simpl;
    [|rewrite app_nil_r; reflexivity].
  destruct (loose_eq_string _ _); simpl; [reflexivity|].
  rewrite app_nil_r. reflexivity.
Qed.

Lemma scan_files_spec customerId token entries : forall quotes w,
  exists w',
    scan_files env customerId token entries quotes w
    = (Ok (quotes ++ scanned env customerId token (files w)
                       (List.length (trace w)) entries), w')
    /\ files w' = files w.
Proof.
  induction entries as [|e rest IH]; intros quotes w; simpl.
  - exists w. rewrite app_nil_r. split; reflexivity.
  - unfold bind. rewrite scan_file_spec.
    destruct (IH (quotes
                  ++ match reject env (List.length (trace w))
                             (PostDownload (VStr (entry_path_lower e)) token)
                     with
                     | Some _ => []
                     | None => entry_quote customerId (files w) e
                     end)
                (posted env w (PostDownload (VStr (entry_path_lower e)) token)))
      as (w' & Hscan & Hfiles).
    exists w'. rewrite Hscan. simpl in *.
    rewrite List.length_app, Nat.add_1_r, <- app_assoc.
    split; [reflexivity|exact Hfiles].
Qed.

Lemma entry_quote_readable customerId fs e :
  Forall (fun v => readable v = true) (entry_quote customerId fs e).
Proof.
  unfold entry_quote.
  destruct (fs !! _); [|constructor].
  destruct (JSON_parse _) as [r|m]; [|constructor].
  destruct (get_prop r "customer_id") eqn:Hcid; [|constructor].
  destruct (loose_eq_string _ _); [|constructor].
  constructor; [|constructor]. eapply get_prop_ok_readable. exact Hcid.
Qed.

Lemma scanned_readable customerId token fs entries : forall n,
  Forall (fun v => readable v = true)
    (scanned env customerId token fs n entries).
Proof.
  induction entries as [|e rest IH]; intros n; simpl; [constructor|].
  apply Forall_app. split; [|apply IH].
  destruct (reject env _ _); [constructor|apply entry_quote_readable].
Qed.

Lemma date_diff_readable a b :
  readable a = true -> readable b = true ->
  date_diff a b
  = Ok (match date_of b, date_of a with
        | Some tb, Some ta => Some (tb - ta)
        | _, _ => None
        end).
Proof.
  intros Ha Hb. unfold date_diff, date_of.
  rewrite (get_prop_readable _ _ Ha), (get_prop_readable _ _ Hb).
  reflexivity.
Qed.

Lemma sort_insert_readable x l :
  readable x = true -> Forall (fun v => readable v = true) l ->
  sort_insert x l = Ok (insert_by_date x l)
  /\ Forall (fun v => readable v = true) (insert_by_date x l).
Proof.
  intros Hx. induction l as [|y rest IH]; intros Hl; simpl.
  - split; [reflexivity|]. constructor; [exact Hx|constructor].
  - apply Forall_cons in Hl as [Hy Hrest].
    destruct (IH Hrest) as [Hins Hall].
    rewrite (date_diff_readable _ _ Hx Hy). unfold goes_after.
    destruct (date_of y), (date_of x); simpl;
      try (split; [reflexivity|];
           constructor; [exact Hx|constructor; assumption]).
    destruct (0 <? z - z0).
    + rewrite Hins. split; [reflexivity|]. constructor; assumption.
    + split; [reflexivity|].
      constructor; [exact Hx|constructor; assumption].
Qed.

Lemma sort_quotes_readable l :
  Forall (fun v => readable v = true) l ->
  sort_quotes l = Ok (sorted_by_date l)
  /\ Forall (fun v => readable v = true) (sorted_by_date l).
Proof.
  induction l as [|x rest IH]; intros Hl; simpl.
  - split; [reflexivity|constructor].
  - apply Forall_cons in Hl as [Hx Hrest].
    destruct (IH Hrest) as [Hsort Hall]. rewrite Hsort.
    apply sort_insert_readable; assumption.
Qed.

Lemma localize_readable l :
  Forall (fun v => readable v = true) l ->
  map_result localize_date l = Ok (List.map localized l).
Proof.
  induction l as [|x rest IH]; intros Hl; simpl; [reflexivity|].
  apply Forall_cons in Hl as [Hx Hrest].
  unfold localize_date at 1. rewrite (get_prop_readable _ _ Hx).
  rewrite (IH Hrest). reflexivity.
Qed.

Lemma loadCustomerQuotes_spec customerId w :
  (loadCustomerQuotes env customerId w).1 = Ok (customer_quotes env customerId w).
Proof.
  unfold loadCustomerQuotes, customer_quotes, scanDropboxQuotes. run.
  destruct (getValidToken env w) as [[token|m] w0]; simpl; [|reflexivity].
  destruct (reject env _ _); simpl; [reflexivity|].
  match goal with
  | |- context [scan_files env ?c ?t ?es ?q ?w'] =>
      destruct (scan_files_spec c t es q w') as (w1 & Hscan & _);
      rewrite Hscan
  end.
  simpl. rewrite List.length_app, Nat.add_1_r.
  pose proof (scanned_readable customerId token (files w0)
                (metadata_files (files w0)) (S (List.length (trace w0))))
    as Hread.
  destruct (sort_quotes_readable _ Hread) as [Hsort Hread'].
  unfold metadata_files in *. rewrite Hsort. simpl.
  rewrite (localize_readable _ Hread'). reflexivity.
Qed.

End Listing.

Section ThreeRecords.
Context `{Builtins} (env : Env).





End ThreeRecords.



(** ** Degraded listings *)

Section DegradedListing.
Context `{Builtins} (env : Env).


End DegradedListing.


(** With a metadata file that does not parse among the three good ones,
    the listing for customer [A] is what it is without it. *)
Example loadCustomerQuotes_skips_broken_file :
  List.length
    (metadata_files
       (files (Scenario.with_broken_file Scenario.three_saved))) = 4%nat
  /\ (loadCustomerQuotes Scenario.quiet "A"
        (Scenario.with_broken_file Scenario.three_saved)).1
     = (loadCustomerQuotes Scenario.quiet "A" Scenario.three_saved).1.
Proof. vm_compute. split; reflexivity. Qed.

(** ** Deleting a quote *)

Section DeleteQuote.
Context `{Builtins} (env : Env).

Lemma token_posts_not_delete ext :
  Forall (fun c => is_token_post c = true) ext ->
  Forall (fun c => is_delete_post c = false) ext.
Proof.
  intros Hext. eapply List.Forall_impl; [|exact Hext].
  intros c Hc. destruct c; try discriminate; reflexivity.
Qed.


(** C9.  The [customerId] argument of [deleteQuote] is never read: for
    any two values of it, [null] included, the method issues the same
    requests, leaves the same world and resolves or throws alike.  No
    comparison with the stored record's customer identifier takes
    place. *)
Theorem deleteQuote_ignores_customerId
    (quoteId customerId customerId' : value) (w : World) :
  deleteQuote env quoteId customerId w
  = deleteQuote env quoteId customerId' w.
Proof. reflexivity. Qed.

End DeleteQuote.


(** Deleting a quote of customer [A] on behalf of customer [B] goes
    through: both of its files are removed. *)
Example deleteQuote_other_customer :
  let w' := (deleteQuote Scenario.quiet (VStr "a1") (VStr "B")
               Scenario.three_saved).2 in
  get_prop (Scenario.stored_record Scenario.three_saved "a1") "customer_id"
  = Ok (VStr "A")
  /\ (deleteQuote Scenario.quiet (VStr "a1") (VStr "B")
        Scenario.three_saved).1
     = Ok (VObj [("success", VBool true);
                 ("message", VStr "Quote deleted successfully");
                 ("deleted_quote_id", VStr "a1")])
  /\ files w' !! "/dtf-quotes/a1_metadata.json" = None
  /\ files w' !! "/dtf-quotes/quote_a1_a1.html" = None.
Proof. vm_compute. repeat split; reflexivity. Qed.

(** ** Saving a quote *)

Section SaveQuote.
Context `{Builtins} (env : Env).

(** What [saveQuote] resolves to once the token, the rendering and the
    two uploads have succeeded. *)
Lemma saveQuote_after_uploads
    (q isUpdate token up1 up2 : value) (fileName html : string)
    (w w0 w1 w2 : World) :
  let filePath := "/dtf-quotes/" +:+ fileName in
  let md := saved_metadata q filePath (toISOString (clock w1)) in
  getValidToken env w = (Ok token, w0) ->
  generateFileName q = Ok fileName ->
  generateQuoteHtml q (clock w0) = Ok html ->
  uploadFile env filePath html token w0 = (Ok up1, w1) ->
  uploadFile env (metadata_path (prop q "id")) (JSON_stringify md) token w1
    = (Ok up2, w2) ->
  saveQuote env q isUpdate w
    = (Ok (save_envelope isUpdate (prop q "id") filePath
             (match (createSharedLink env filePath token w2).1 with
              | Ok u => VStr u
              | Throw _ => VNull
              end) md),
       (createSharedLink env filePath token w2).2).
Proof.
  intros filePath md Htok Hgen Hhtml Hup1 Hup2.
  pose proof (generateFileName_ok_props _ _ Hgen) as Hprops.
  subst filePath md. unfold saved_metadata, save_envelope in *.
  unfold saveQuote, try_catch at 1, bind at 1. rewrite Htok.
  unfold bind at 1, lift at 1. rewrite Hgen.
  unfold bind at 1, Date_now at 1, bind at 1, lift at 1. rewrite Hhtml.
  unfold bind at 1. rewrite Hup1.
  unfold bind, lift, Date_now. rewrite !Hprops.
  rewrite Hup2. unfold try_catch, ret.
  destruct (createSharedLink env _ token w2) as [[u|m] w3]; reflexivity.
Qed.

(** C7.  Once the token, the rendering and the two uploads have
    succeeded, [saveQuote] resolves to the success envelope whatever
    becomes of the shared link: its [download_url] is the link when
    [createSharedLink] resolves and [null] when it throws, and the
    world is the one the sharing attempt left. *)
Theorem saveQuote_share_failure_swallowed
    (q isUpdate token up1 up2 : value) (fileName html : string)
    (w w0 w1 w2 : World) :
  let filePath := "/dtf-quotes/" +:+ fileName in
  let md := saved_metadata q filePath (toISOString (clock w1)) in
  getValidToken env w = (Ok token, w0) ->
  generateFileName q = Ok fileName ->
  generateQuoteHtml q (clock w0) = Ok html ->
  uploadFile env filePath html token w0 = (Ok up1, w1) ->
  uploadFile env (metadata_path (prop q "id")) (JSON_stringify md) token w1
    = (Ok up2, w2) ->
  saveQuote env q isUpdate w
    = (Ok (save_envelope isUpdate (prop q "id") filePath
             (match (createSharedLink env filePath token w2).1 with
              | Ok u => VStr u
              | Throw _ => VNull
              end) md),
       (createSharedLink env filePath token w2).2)
  /\ (forall msg w3,
        createSharedLink env filePath token w2 = (Throw msg, w3) ->
        exists envelope,
          saveQuote env q isUpdate w = (Ok envelope, w3)
          /\ get_prop envelope "success" = Ok (VBool true)
          /\ get_prop envelope "download_url" = Ok VNull).
Proof.
  intros filePath md Htok Hgen Hhtml Hup1 Hup2.
  pose proof (saveQuote_after_uploads q isUpdate token up1 up2 fileName html
                w w0 w1 w2 Htok Hgen Hhtml Hup1 Hup2) as Hsave.
  split; [exact Hsave|].
  intros msg w3 Hshare. rewrite Hsave.
  subst filePath. rewrite Hshare. simpl.
  eexists. split; [reflexivity|]. split; reflexivity.
Qed.

End SaveQuote.

Lemma saveQuote_share_failure_swallowed_witness :
  exists envelope,
    (saveQuote Scenario.sharing_down Scenario.order1 (VBool false)
       (Scenario.world_of Scenario.cold ∅)).1 = Ok envelope
    /\ get_prop envelope "success" = Ok (VBool true)
    /\ get_prop envelope "download_url" = Ok VNull.
Proof.
  pose (env := Scenario.sharing_down).
  pose (w := Scenario.world_of Scenario.cold ∅).
  pose (token := VStr "token-1").
  pose (w0 := (getValidToken env w).2).
  pose (fileName := "Order__1_q1.html").
  pose (filePath := "/dtf-quotes/" +:+ fileName).
  pose (html := quote_template Scenario.order1 (VObj []) None (clock w0)).
  pose (up1 := uploadFile env filePath html token w0).
  pose (md := saved_metadata Scenario.order1 filePath
                (toISOString (clock up1.2))).
  pose (up2 := uploadFile env (metadata_path (VStr "q1"))
                 (JSON_stringify md) token up1.2).
  pose (share := createSharedLink env filePath token up2.2).
  destruct (proj2 (saveQuote_share_failure_swallowed env Scenario.order1
                     (VBool false) token
                     (Scenario.or_undef up1.1) (Scenario.or_undef up2.1)
                     fileName html w w0 up1.2 up2.2
                     ltac:(vm_compute; reflexivity)
                     ltac:(vm_compute; reflexivity)
                     ltac:(vm_compute; reflexivity)
                     ltac:(vm_compute; reflexivity)
                     ltac:(vm_compute; reflexivity))
              "Request failed with status code 409" share.2
              ltac:(vm_compute; reflexivity))
    as (envelope & Hsave & Hsuccess & Hurl).
  exists envelope. fold env w. rewrite Hsave.
  split; [reflexivity|]. split; assumption.
Defined.

Lemma sanitized_get name : forall i c,
  String.get i name = Some c ->
  String.get i (map_string sanitize_char name)
  = Some (if is_alnum c then c else "_"%char).
Proof.
  induction name as [|c0 rest IH]; intros i c; simpl; [discriminate|].
  destruct i as [|i]; [intros [= ->]; reflexivity|apply IH].
Qed.

Section SaveScenario.
Context `{Builtins} (env : Env).

Lemma uploadFile_accepted path content token w :
  reject env (List.length (trace w)) (PostUpload path content token) = None ->
  uploadFile env path content token w
  = (Ok (VObj [("name", VStr (basename path));
               ("path_lower", VStr (path_lower path));
               ("path_display", VStr path)]),
     {| svc := svc w;
        files := <[path_lower path :=
                     {| file_display := path; file_content := content |}]>
                   (files w);
        clock := clock w + latency env (List.length (trace w));
        trace := trace w ++ [PostUpload path content token] |}).
Proof. intros Hrej. unfold uploadFile. run. rewrite Hrej. reflexivity. Qed.

(** C8.  With the token available and no upload rejected, saving the
    quote [{id: "q1", quote_name: "Order #1", customer_id: "c1",
    total_transfers: 50}] resolves to a success envelope whose [quote_id]
    is ["q1"], whose [file_path] is ["/dtf-quotes/Order__1_q1.html"] (the
    name with each character that is not a letter or a digit replaced by
    an underscore) and whose [metadata] has [total_transfers] 50; the
    document and the metadata are stored under these paths. *)
Theorem saveQuote_order1 (isUpdate token : value) (w w0 : World) :
  getValidToken env w = (Ok token, w0) ->
  (forall n path content tok,
     reject env n (PostUpload path content tok) = None) ->
  exists envelope md w',
    saveQuote env Scenario.order1 isUpdate w = (Ok envelope, w')
    /\ get_prop envelope "success" = Ok (VBool true)
    /\ get_prop envelope "quote_id" = Ok (VStr "q1")
    /\ get_prop envelope "file_path"
       = Ok (VStr "/dtf-quotes/Order__1_q1.html")
    /\ (forall i c,
          String.get i "Order #1" = Some c ->
          String.get i "Order__1"
          = Some (if is_alnum c then c else "_"%char))
    /\ get_prop envelope "metadata" = Ok md
    /\ get_prop md "total_transfers" = Ok (VNum 50)
    /\ get_prop md "file_path" = Ok (VStr "/dtf-quotes/Order__1_q1.html")
    /\ is_Some (files w' !! "/dtf-quotes/order__1_q1.html")
    /\ (file_content <$> files w' !! "/dtf-quotes/q1_metadata.json")
       = Some (JSON_stringify md).
Proof.
  intros Htok Hrej.
  pose (filePath := "/dtf-quotes/Order__1_q1.html").
  pose (html := quote_template Scenario.order1 (VObj []) None (clock w0)).
  pose proof (uploadFile_accepted filePath html token w0 (Hrej _ _ _ _))
    as Hup1.
  match type of Hup1 with _ = (Ok ?u, ?w1') =>
    set (up1 := u) in *; set (w1 := w1') in * end.
  pose (md := saved_metadata Scenario.order1 filePath
                (toISOString (clock w1))).
  pose proof (uploadFile_accepted (metadata_path (VStr "q1"))
                (JSON_stringify md) token w1 (Hrej _ _ _ _)) as Hup2.
  match type of Hup2 with _ = (Ok ?u, ?w2') =>
    set (up2 := u) in *; set (w2 := w2') in * end.
  pose proof (saveQuote_after_uploads env Scenario.order1 isUpdate
                token up1 up2 "Order__1_q1.html" html w w0 w1 w2
                Htok eq_refl eq_refl Hup1 Hup2) as Hsave.
  eexists. exists md. eexists. split; [exact Hsave|].
  repeat (split; [reflexivity|]).
  split; [apply (sanitized_get "Order #1")|].
  repeat (split; [reflexivity|]).
  rewrite createSharedLink_files. subst w2 w1. simpl. split.
  - rewrite lookup_insert_ne by discriminate.
    rewrite lookup_insert_eq. eexists. reflexivity.
  - change (path_lower (metadata_path (VStr "q1")))
      with "/dtf-quotes/q1_metadata.json".
    rewrite lookup_insert_eq. reflexivity.
Qed.

End SaveScenario.

Lemma saveQuote_order1_witness :
  exists envelope md w',
    saveQuote Scenario.quiet Scenario.order1 (VBool false)
      (Scenario.world_of Scenario.cold ∅) = (Ok envelope, w')
    /\ get_prop envelope "success" = Ok (VBool true)
    /\ get_prop envelope "quote_id" = Ok (VStr "q1")
    /\ get_prop envelope "file_path"
       = Ok (VStr "/dtf-quotes/Order__1_q1.html")
    /\ (forall i c,
          String.get i "Order #1" = Some c ->
          String.get i "Order__1"
          = Some (if is_alnum c then c else "_"%char))
    /\ get_prop envelope "metadata" = Ok md
    /\ get_prop md "total_transfers" = Ok (VNum 50)
    /\ get_prop md "file_path" = Ok (VStr "/dtf-quotes/Order__1_q1.html")
    /\ is_Some (files w' !! "/dtf-quotes/order__1_q1.html")
    /\ (file_content <$> files w' !! "/dtf-quotes/q1_metadata.json")
       = Some (JSON_stringify md).
Proof.
  apply (saveQuote_order1 Scenario.quiet (VBool false) (VStr "token-1")
           (Scenario.world_of Scenario.cold ∅)
           (getValidToken Scenario.quiet
              (Scenario.world_of Scenario.cold ∅)).2).
  - vm_compute. reflexivity.
  - intros n path content tok. reflexivity.
Defined.

(** ** Loading a logo *)

Section LoadLogo.
Context `{Builtins} (env : Env).

Lemma loadCustomerLogo_spec customerId w :
  loadCustomerLogo env customerId w = customer_logo env customerId w.
Proof.
  unfold loadCustomerLogo, customer_logo, downloadFile, logo_metadata_path,
    posted.
  run.
  destruct (getValidToken env w) as [[token|m] w0]; simpl; [|reflexivity].
  destruct (reject env (List.length (trace w0)) _); simpl; [reflexivity|].
  destruct (files w0 !! _); simpl; [|reflexivity].
  destruct (JSON_parse _); reflexivity.
Qed.

(** C10.  [loadCustomerLogo] never throws, and resolves to [null] not
    only when there is no logo metadata document but on every failure:
    when the token cannot be obtained, when the download is rejected,
    and when the stored text does not parse.  Only when all three steps
    succeed does it resolve to the parsed document. *)
Theorem loadCustomerLogo_null_on_failure (customerId : string) (w : World) :
  (exists v, (loadCustomerLogo env customerId w).1 = Ok v)
  /\ (forall msg w0,
        getValidToken env w = (Throw msg, w0) ->
        loadCustomerLogo env customerId w = (Ok VNull, w0))
  /\ (forall token w0,
        getValidToken env w = (Ok token, w0) ->
        let c := PostDownload (VStr (logo_metadata_path customerId)) token in
        let key := path_lower (logo_metadata_path customerId) in
        (forall msg,
           reject env (List.length (trace w0)) c = Some msg ->
           loadCustomerLogo env customerId w = (Ok VNull, posted env w0 c))
        /\ (files w0 !! key = None ->
            loadCustomerLogo env customerId w = (Ok VNull, posted env w0 c))
        /\ (forall f msg,
              files w0 !! key = Some f ->
              JSON_parse (file_content f) = Throw msg ->
              loadCustomerLogo env customerId w
              = (Ok VNull, posted env w0 c))
        /\ (forall f logoData,
              reject env (List.length (trace w0)) c = None ->
              files w0 !! key = Some f ->
              JSON_parse (file_content f) = Ok logoData ->
              loadCustomerLogo env customerId w
              = (Ok logoData, posted env w0 c))).
Proof.
  rewrite loadCustomerLogo_spec. unfold customer_logo.
  destruct (getValidToken env w) as [[token|m] w0].
  - split; [|split].
    + simpl. destruct (reject env _ _); [eauto|].
      destruct (files w0 !! _); [|eauto].
      destruct (JSON_parse _); eauto.
    + intros msg w1 [=].
    + intros token' w1 [= <- <-]. cbn zeta. split; [|split; [|split]].
      * intros msg ->. reflexivity.
      * intros ->. destruct (reject env _ _); reflexivity.
      * intros f msg -> ->. destruct (reject env _ _); reflexivity.
      * intros f logoData -> -> ->. reflexivity.
  - split; [simpl; eauto|]. split.
    + intros msg w1 [= <- <-]. reflexivity.
    + intros token w1 [=].
Qed.

End LoadLogo.

Lemma loadCustomerLogo_null_on_failure_witness :
  loadCustomerLogo Scenario.offline "c1" (Scenario.world_of Scenario.cold ∅)
  = (Ok VNull,
     (getValidToken Scenario.offline
        (Scenario.world_of Scenario.cold ∅)).2)
  /\ loadCustomerLogo Scenario.offline "c1"
       (Scenario.world_of Scenario.warm ∅)
     = (Ok VNull,
        posted Scenario.offline (Scenario.world_of Scenario.warm ∅)
          (PostDownload (VStr (logo_metadata_path "c1")) (VStr "token-0"))).
Proof.
  split.
  - apply (proj1 (proj2 (loadCustomerLogo_null_on_failure Scenario.offline
                           "c1" (Scenario.world_of Scenario.cold ∅)))
             "Failed to refresh token: Network Error").
    vm_compute. reflexivity.
  - apply (proj1 (proj2 (proj2 (loadCustomerLogo_null_on_failure
                                  Scenario.offline "c1"
                                  (Scenario.world_of Scenario.warm ∅)))
                    (VStr "token-0") (Scenario.world_of Scenario.warm ∅)
                    ltac:(vm_compute; reflexivity))
             "Network Error").
    reflexivity.
Defined.

(** ** The token, once obtained *)

Section TokenReuse.
Context `{Builtins} (env : Env).

Lemma getValidToken_fresh w :
  needs_refresh (svc w) (clock w) = false ->
  getValidToken env w = (Ok (accessToken (svc w)), w).
Proof.
  intros Hfresh. unfold getValidToken, refreshTokenIfNeeded. run.
  rewrite Hfresh. reflexivity.
Qed.

Lemma refreshAccessToken_unconfigured w :
  configured (svc w) = false ->
  refreshAccessToken env w
  = (Throw "Failed to refresh token: Missing Dropbox OAuth credentials", w).
Proof.
  unfold configured. intros Hconf. apply negb_false_iff in Hconf.
  unfold refreshAccessToken. run. rewrite Hconf. reflexivity.
Qed.

Lemma getValidToken_unconfigured w :
  configured (svc w) = false ->
  needs_refresh (svc w) (clock w) = true ->
  getValidToken env w
  = (Throw "Failed to refresh token: Missing Dropbox OAuth credentials", w).
Proof.
  intros Hconf Hstale. unfold getValidToken, refreshTokenIfNeeded. run.
  rewrite Hstale, (refreshAccessToken_unconfigured _ Hconf). reflexivity.
Qed.

(** What a refresh that resolves has done. *)
Lemma refreshAccessToken_ok_inv w tok w1 :
  refreshAccessToken env w = (Ok tok, w1) ->
  let c := token_request (svc w) in
  let n := List.length (trace w) in
  exists ex e,
    configured (svc w) = true
    /\ reject env n c = None
    /\ get_prop (reply env n c) "access_token" = Ok tok
    /\ get_prop (reply env n c) "expires_in" = Ok ex
    /\ ToNumber ex = Some e
    /\ Z.abs (clock w + latency env n + e * 1000) <= 8640000000000000
    /\ w1 = {| svc := set_expiry (Some (clock w + latency env n + e * 1000))
                        (set_token tok (svc w));
               files := files w;
               clock := clock w + latency env n;
               trace := trace w ++ [c] |}.
Proof.
  unfold refreshAccessToken, configured. run.
  destruct (falsy_str (appKey (svc w)) || falsy_str (appSecret (svc w))
            || falsy_str (refreshToken (svc w))); simpl; [discriminate|].
  destruct (reject env _ _); simpl; [discriminate|].
  destruct (get_prop (reply env _ _) "access_token") as [tok'|]; simpl;
    [|discriminate].
  destruct (get_prop (reply env _ _) "expires_in") as [ex|]; simpl;
    [|discriminate].
  destruct (ToNumber ex) as [e|] eqn:He; simpl; [|discriminate].
  destruct (Z.leb_spec (Z.abs (clock w + latency env (List.length (trace w))
                               + e * 1000)) 8640000000000000) as [Hle|Hgt];
    simpl; [|discriminate].
  intros [= <- <-]. exists ex, e. repeat split; try reflexivity; assumption.
Qed.

(** X1.  When the credentials are configured and the token endpoint
    answers with a body whose [access_token] is [tok] and whose
    [expires_in] is a number of seconds [e], [refreshAccessToken]
    resolves to [tok] after exactly one request; the service then holds
    [tok], with the expiry [e] seconds after the moment the answer
    arrived; the credentials and the remote files are untouched. *)
Theorem refreshAccessToken_stores_token
    (w : World) (tok ex : value) (e : Z) :
  let c := token_request (svc w) in
  let n := List.length (trace w) in
  let arrival := clock w + latency env n in
  configured (svc w) = true ->
  reject env n c = None ->
  get_prop (reply env n c) "access_token" = Ok tok ->
  get_prop (reply env n c) "expires_in" = Ok ex ->
  ToNumber ex = Some e ->
  Z.abs (arrival + e * 1000) <= 8640000000000000 ->
  exists w1,
    refreshAccessToken env w = (Ok tok, w1)
    /\ accessToken (svc w1) = tok
    /\ tokenExpiresAt (svc w1) = Some (Some (arrival + e * 1000))
    /\ appKey (svc w1) = appKey (svc w)
    /\ appSecret (svc w1) = appSecret (svc w)
    /\ refreshToken (svc w1) = refreshToken (svc w)
    /\ files w1 = files w
    /\ clock w1 = arrival
    /\ trace w1 = trace w ++ [c].
Proof.
  intros c n arrival Hconf Hrej Htok Hex He Hrange. subst c n arrival.
  unfold configured in Hconf. apply negb_true_iff in Hconf.
  unfold refreshAccessToken. run. rewrite Hconf, Hrej. simpl.
  rewrite Htok, Hex. simpl. rewrite He. simpl.
  apply Z.leb_le in Hrange. rewrite Hrange. simpl.
  eexists. split; [reflexivity|]. simpl. repeat split; reflexivity.
Qed.

(** X2.  A token that a refresh has delivered is handed out again, with
    no request and no change to the world, by every later call made
    earlier than ten minutes before the expiry the refresh recorded,
    provided the token is not empty.  If the token endpoint delivered an
    empty or missing token, the refresh resolves all the same and every
    later call refreshes again. *)
Theorem refreshAccessToken_then_reuse (w w1 : World) (tok : value) :
  refreshAccessToken env w = (Ok tok, w1) ->
  exists t,
    accessToken (svc w1) = tok
    /\ tokenExpiresAt (svc w1) = Some (Some t)
    /\ (truthy tok = true ->
        forall w2,
          svc w2 = svc w1 -> clock w2 < t - bufferTime ->
          refreshTokenIfNeeded env w2 = (Ok tok, w2)
          /\ getValidToken env w2 = (Ok tok, w2))
    /\ (truthy tok = false ->
        forall now, needs_refresh (svc w1) now = true).
Proof.
  intros Hok. apply refreshAccessToken_ok_inv in Hok.
  destruct Hok as (ex & e & _ & _ & _ & _ & _ & _ & ->).
  eexists. simpl. split; [reflexivity|]. split; [reflexivity|]. split.
  - intros Htruthy w2 Hsvc Hclock.
    assert (Hfresh : needs_refresh (svc w2) (clock w2) = false).
    { rewrite Hsvc. unfold needs_refresh. simpl. rewrite Htruthy. simpl.
      apply Z.leb_gt. lia. }
    split.
    + unfold refreshTokenIfNeeded. run. rewrite Hfresh, Hsvc. reflexivity.
    + rewrite (getValidToken_fresh _ Hfresh), Hsvc. reflexivity.
  - intros Hfalsy now. unfold needs_refresh. simpl. rewrite Hfalsy.
    reflexivity.
Qed.

End TokenReuse.

Lemma refreshAccessToken_stores_token_witness :
  exists w1,
    refreshAccessToken Scenario.quiet (Scenario.world_of Scenario.cold ∅)
    = (Ok (VStr "token-1"), w1)
    /\ accessToken (svc w1) = VStr "token-1"
    /\ tokenExpiresAt (svc w1)
       = Some (Some (Scenario.noon + 5 + 14400 * 1000))
    /\ appKey (svc w1) = Some "app-key"
    /\ appSecret (svc w1) = Some "app-secret"
    /\ refreshToken (svc w1) = Some "refresh-token"
    /\ files w1 = ∅
    /\ clock w1 = Scenario.noon + 5
    /\ trace w1 = [PostToken "refresh-token" "app-key" "app-secret"].
Proof.
  apply (refreshAccessToken_stores_token Scenario.quiet
           (Scenario.world_of Scenario.cold ∅)
           (VStr "token-1") (VNum 14400) 14400).
  - reflexivity.
  - reflexivity.
  - reflexivity.
  - reflexivity.
  - reflexivity.
  - vm_compute. discriminate.
Defined.

Lemma refreshAccessToken_then_reuse_witness :
  exists t,
    accessToken
      (svc (refreshAccessToken Scenario.quiet
              (Scenario.world_of Scenario.cold ∅)).2) = VStr "token-1"
    /\ tokenExpiresAt
         (svc (refreshAccessToken Scenario.quiet
                 (Scenario.world_of Scenario.cold ∅)).2) = Some (Some t)
    /\ (truthy (VStr "token-1") = true ->
        forall w2,
          svc w2 = svc (refreshAccessToken Scenario.quiet
                          (Scenario.world_of Scenario.cold ∅)).2 ->
          clock w2 < t - bufferTime ->
          refreshTokenIfNeeded Scenario.quiet w2 = (Ok (VStr "token-1"), w2)
          /\ getValidToken Scenario.quiet w2 = (Ok (VStr "token-1"), w2))
    /\ (truthy (VStr "token-1") = false ->
        forall now,
          needs_refresh
            (svc (refreshAccessToken Scenario.quiet
                    (Scenario.world_of Scenario.cold ∅)).2) now = true).
Proof.
  apply (refreshAccessToken_then_reuse Scenario.quiet
           (Scenario.world_of Scenario.cold ∅)).
  vm_compute. reflexivity.
Defined.

(** ** A service without credentials *)

Section FailClosed.
Context `{Builtins} (env : Env).

(** X3.  A service constructed with one of the three credentials
    missing or empty is accepted by the constructor, and then fails
    closed: the methods that report failures throw their own prefix
    followed by the refresh failure, the two lenient loaders resolve to
    their empty results, and in each case the world is unchanged, so no
    request has been issued. *)
Theorem unconfigured_service_fails_closed
    (key secret refresh : option string) (w : World) :
  svc w = new_DropboxService key secret refresh ->
  falsy_str key || falsy_str secret || falsy_str refresh = true ->
  let msg := "Failed to refresh token: Missing Dropbox OAuth credentials" in
  (forall q isUpdate,
     saveQuote env q isUpdate w = (Throw ("Failed to save quote: " +:+ msg), w))
  /\ (forall quoteId format,
        loadQuote env quoteId format w
        = (Throw ("Failed to load quote: " +:+ msg), w))
  /\ (forall quoteId customerId,
        deleteQuote env quoteId customerId w
        = (Throw ("Failed to delete quote: " +:+ msg), w))
  /\ (forall customerId logoData,
        saveCustomerLogo env customerId logoData w
        = (Throw ("Failed to save logo metadata: " +:+ msg), w))
  /\ (forall customerId,
        deleteCustomerLogo env customerId w
        = (Throw ("Failed to delete logo: " +:+ msg), w))
  /\ (forall customerId, loadCustomerQuotes env customerId w = (Ok [], w))
  /\ (forall customerId, loadCustomerLogo env customerId w = (Ok VNull, w)).
Proof.
  intros Hsvc Hmissing msg.
  assert (Htok : getValidToken env w = (Throw msg, w)).
  { apply getValidToken_unconfigured.
    - unfold configured. rewrite Hsvc. simpl. rewrite Hmissing. reflexivity.
    - unfold needs_refresh. rewrite Hsvc. reflexivity. }
  repeat split; intros.
  - unfold saveQuote. run. rewrite Htok. reflexivity.
  - unfold loadQuote. run. rewrite Htok. reflexivity.
  - unfold deleteQuote. run. rewrite Htok. reflexivity.
  - unfold saveCustomerLogo. run. rewrite Htok. reflexivity.
  - unfold deleteCustomerLogo. run. rewrite Htok. reflexivity.
  - unfold loadCustomerQuotes. run. rewrite Htok. reflexivity.
  - unfold loadCustomerLogo. run. rewrite Htok. reflexivity.
Qed.

End FailClosed.

Lemma unconfigured_service_fails_closed_witness :
  let w := Scenario.world_of Scenario.unconfigured ∅ in
  let msg := "Failed to refresh token: Missing Dropbox OAuth credentials" in
  (forall q isUpdate,
     saveQuote Scenario.offline q isUpdate w
     = (Throw ("Failed to save quote: " +:+ msg), w))
  /\ (forall quoteId format,
        loadQuote Scenario.offline quoteId format w
        = (Throw ("Failed to load quote: " +:+ msg), w))
  /\ (forall quoteId customerId,
        deleteQuote Scenario.offline quoteId customerId w
        = (Throw ("Failed to delete quote: " +:+ msg), w))
  /\ (forall customerId logoData,
        saveCustomerLogo Scenario.offline customerId logoData w
        = (Throw ("Failed to save logo metadata: " +:+ msg), w))
  /\ (forall customerId,
        deleteCustomerLogo Scenario.offline customerId w
        = (Throw ("Failed to delete logo: " +:+ msg), w))
  /\ (forall customerId,
        loadCustomerQuotes Scenario.offline customerId w = (Ok [], w))
  /\ (forall customerId,
        loadCustomerLogo Scenario.offline customerId w = (Ok VNull, w)).
Proof.
  apply (unconfigured_service_fails_closed Scenario.offline
           (Some "app-key") (Some "app-secret") None
           (Scenario.world_of Scenario.unconfigured ∅)).
  - reflexivity.
  - reflexivity.
Defined.

(** ** Logos *)

Section Logos.
Context `{Builtins} (env : Env).







(** What [loadCustomerLogo] leaves of the world: the remote files are
    untouched and no delete request is issued. *)
Lemma loadCustomerLogo_frame customerId w :
  files (loadCustomerLogo env customerId w).2 = files w
  /\ exists ext,
       trace (loadCustomerLogo env customerId w).2 = trace w ++ ext
       /\ Forall (fun c => is_delete_post c = false) ext.
Proof.
  rewrite loadCustomerLogo_spec. unfold customer_logo.
  pose proof (getValidToken_files env w) as Hfiles.
  destruct (getValidToken_trace env w) as (ext & Htrace & Hext).
  apply token_posts_not_delete in Hext.
  destruct (getValidToken env w) as [[token|m] w0]; simpl in *.
  - split; [exact Hfiles|].
    exists (ext ++ [PostDownload (VStr (logo_metadata_path customerId))
                      token]).
    rewrite Htrace, <- app_assoc. split; [reflexivity|].
    apply Forall_app. split; [exact Hext|]. repeat constructor.
  - split; [exact Hfiles|]. exists ext. split; assumption.
Qed.

(** X5.  Whenever [loadCustomerLogo] comes back with nothing (no logo
    metadata, but also a rejected download or a text that does not
    parse, or a record that is falsy), [deleteCustomerLogo] resolves to
    its success envelope without having issued a delete request: the
    remote files are as before. *)
Theorem deleteCustomerLogo_nothing_loaded
    (customerId : string) (token logoData : value) (w w0 w1 : World) :
  getValidToken env w = (Ok token, w0) ->
  loadCustomerLogo env customerId w0 = (Ok logoData, w1) ->
  truthy logoData = false ->
  deleteCustomerLogo env customerId w
  = (Ok (VObj [("success", VBool true);
               ("message", VStr "Logo deleted successfully")]), w1)
  /\ files w1 = files w
  /\ exists ext,
       trace w1 = trace w ++ ext
       /\ Forall (fun c => is_delete_post c = false) ext.
Proof.
  intros Htok Hload Hfalsy. split; [|split].
  - unfold deleteCustomerLogo. run. rewrite Htok. simpl.
    rewrite Hload. simpl. rewrite Hfalsy. reflexivity.
  - pose proof (getValidToken_files env w) as Hf0.
    pose proof (proj1 (loadCustomerLogo_frame customerId w0)) as Hf1.
    rewrite Htok in Hf0. rewrite Hload in Hf1. simpl in *. congruence.
  - destruct (getValidToken_trace env w) as (ext0 & Ht0 & He0).
    apply token_posts_not_delete in He0.
    destruct (proj2 (loadCustomerLogo_frame customerId w0))
      as (ext1 & Ht1 & He1).
    rewrite Htok in Ht0. rewrite Hload in Ht1. simpl in *.
    exists (ext0 ++ ext1). rewrite Ht1, Ht0, <- app_assoc.
    split; [reflexivity|]. apply Forall_app. split; assumption.
Qed.




End Logos.


Lemma deleteCustomerLogo_nothing_loaded_witness :
  let w := Scenario.logo_saved in
  let w1 := (loadCustomerLogo Scenario.downloads_down "c1" w).2 in
  deleteCustomerLogo Scenario.downloads_down "c1" w
  = (Ok (VObj [("success", VBool true);
               ("message", VStr "Logo deleted successfully")]), w1)
  /\ files w1 = files w
  /\ exists ext,
       trace w1 = trace w ++ ext
       /\ Forall (fun c => is_delete_post c = false) ext.
Proof.
  apply (deleteCustomerLogo_nothing_loaded Scenario.downloads_down "c1"
           (VStr "token-1") VNull Scenario.logo_saved Scenario.logo_saved).
  - vm_compute. reflexivity.
  - vm_compute. reflexivity.
  - reflexivity.
Defined.



(** ** Paths *)

Lemma map_string_app f a b :
  map_string f (a +:+ b) = map_string f a +:+ map_string f b.
Proof.
  induction a as [|c a IH]; [reflexivity|].
  rewrite ReferenceCodec.append_cons. simpl.
  rewrite ReferenceCodec.append_cons, IH. reflexivity.
Qed.










Lemma substring_prefix_app a b :
  String.substring 0 (String.length a) (a +:+ b) = a.
Proof.
  induction a as [|c a IH].
  - simpl. destruct b; reflexivity.
  - rewrite ReferenceCodec.append_cons. simpl. rewrite IH. reflexivity.
Qed.

Lemma substring_suffix_app a b :
  String.substring (String.length a) (String.length b) (a +:+ b) = b.
Proof.
  induction a as [|c a IH].
  - rewrite ReferenceCodec.append_empty_l. apply ReferenceCodec.substring_all.
  - rewrite ReferenceCodec.append_cons. simpl. exact IH.
Qed.





(** ** Sorting by date *)

Section Sorting.
Context `{Builtins}.

Lemma insert_by_date_perm x l : insert_by_date x l ≡ₚ x :: l.
Proof.
  induction l as [|y l IH]; simpl; [reflexivity|].
  destruct (goes_after x y); [|reflexivity].
  rewrite IH. apply Permutation_swap.
Qed.

Lemma sorted_by_date_perm l : sorted_by_date l ≡ₚ l.
Proof.
  induction l as [|x l IH]; simpl; [reflexivity|].
  rewrite insert_by_date_perm, IH. reflexivity.
Qed.

Lemma not_older_trans a b c :
  not_older a b -> not_older b c -> not_older a c.
Proof.
  unfold not_older.
  destruct (date_of a), (date_of b), (date_of c); try tauto; lia.
Qed.

Lemma insert_by_date_sorted x l :
  is_Some (date_of x) ->
  Forall (fun r => is_Some (date_of r)) l ->
  StronglySorted not_older l ->
  StronglySorted not_older (insert_by_date x l).
Proof.
  intros [tx Hx] Hvalid Hsorted.
  induction l as [|y l IH]; simpl.
  - constructor; constructor.
  - apply Forall_cons in Hvalid as [[ty Hy] Hvalid].
    apply StronglySorted_inv in Hsorted as [Hsorted Hhead].
    unfold goes_after. rewrite Hy, Hx.
    destruct (Z.ltb_spec 0 (ty - tx)) as [Hlt|Hge].
    + constructor; [apply IH; assumption|].
      apply List.Forall_forall. intros z Hz.
      apply (Permutation_in _ (insert_by_date_perm x l)) in Hz.
      destruct Hz as [<-|Hz].
      * unfold not_older. rewrite Hy, Hx. lia.
      * apply (proj1 (List.Forall_forall _ _) Hhead z Hz).
    + assert (Hxy : not_older x y)
        by (unfold not_older; rewrite Hx, Hy; lia).
      constructor; [constructor; assumption|].
      constructor; [exact Hxy|].
      eapply List.Forall_impl; [|exact Hhead].
      intros z Hyz. exact (not_older_trans _ _ _ Hxy Hyz).
Qed.

Lemma sorted_by_date_sorted l :
  Forall (fun r => is_Some (date_of r)) l ->
  StronglySorted not_older (sorted_by_date l).
Proof.
  induction l as [|x l IH]; intros Hvalid; simpl; [constructor|].
  apply Forall_cons in Hvalid as [Hx Hvalid].
  apply insert_by_date_sorted; [exact Hx| |apply IH, Hvalid].
  rewrite sorted_by_date_perm. exact Hvalid.
Qed.

End Sorting.

(** ** Objects *)


Lemma assoc_set_key_ne k k' v kvs :
  k' <> k -> assoc k' (set_key k v kvs) = assoc k' kvs.
Proof.
  intros Hne. induction kvs as [|[k0 v0] kvs IH]; simpl.
  - destruct (String.eqb_spec k' k) as [->|_]; [contradiction|reflexivity].
  - destruct (String.eqb_spec k k0) as [->|Hk]; simpl.
    + destruct (String.eqb_spec k' k0) as [->|_]; [contradiction|reflexivity].
    + destruct (String.eqb k' k0); [reflexivity|exact IH].
Qed.

(** ** The listing, for every store *)

Section ListingOrder.
Context `{Builtins} (env : Env).

Lemma scanDropboxQuotes_spec customerId token w :
  (scanDropboxQuotes env customerId token w).1
  = Ok (match reject env (List.length (trace w))
                (PostListFolder quotes_folder token) with
        | Some _ => []
        | None =>
            sorted_by_date
              (scanned env customerId token (files w)
                 (S (List.length (trace w))) (metadata_files (files w)))
        end).
Proof.
  unfold scanDropboxQuotes. run.
  destruct (reject env _ _); simpl; [reflexivity|].
  match goal with
  | |- context [scan_files env ?c ?t ?es ?q ?w'] =>
      destruct (scan_files_spec env c t es q w') as (w1 & Hscan & _);
      rewrite Hscan
  end.
  simpl. rewrite List.length_app, Nat.add_1_r.
  pose proof (scanned_readable env customerId token (files w)
                (metadata_files (files w)) (S (List.length (trace w))))
    as Hread.
  destruct (sort_quotes_readable _ Hread) as [Hsort _].
  unfold metadata_files in *. rewrite Hsort. reflexivity.
Qed.

Lemma customer_quotes_scan customerId w :
  customer_quotes env customerId w
  = match getValidToken env w with
    | (Throw _, _) => []
    | (Ok token, w0) =>
        List.map localized
          (match (scanDropboxQuotes env customerId token w0).1 with
           | Ok l => l
           | Throw _ => []
           end)
    end.
Proof.
  unfold customer_quotes.
  destruct (getValidToken env w) as [[token|m] w0]; [|reflexivity].
  rewrite scanDropboxQuotes_spec.
  destruct (reject env _ _); reflexivity.
Qed.

(** X8.  [loadCustomerQuotes] resolves to the localized copies of the
    records [scanDropboxQuotes] returned, in the same order, and that
    order is newest first: whenever the creation times of the records
    are all valid dates, each record was created no earlier than every
    record after it. *)
Theorem loadCustomerQuotes_newest_first (customerId : string) (w : World) :
  exists l,
    (loadCustomerQuotes env customerId w).1 = Ok (List.map localized l)
    /\ (forall token w0,
          getValidToken env w = (Ok token, w0) ->
          (scanDropboxQuotes env customerId token w0).1 = Ok l)
    /\ (Forall (fun r => is_Some (date_of r)) l ->
        StronglySorted not_older l).
Proof.
  rewrite loadCustomerQuotes_spec, customer_quotes_scan.
  destruct (getValidToken env w) as [[token|m] w0].
  - rewrite scanDropboxQuotes_spec.
    eexists. split; [reflexivity|]. split.
    + intros token' w0' [= <- <-]. apply scanDropboxQuotes_spec.
    + destruct (reject env _ _); [constructor|].
      intros Hvalid. apply sorted_by_date_sorted.
      rewrite <- sorted_by_date_perm. exact Hvalid.
  - exists []. split; [reflexivity|]. split; [|constructor].
    intros token w0' [=].
Qed.

Lemma entry_quote_customer customerId fs e :
  Forall (fun r => exists kvs,
            r = VObj kvs
            /\ loose_eq_string (prop r "customer_id") customerId = true)
    (entry_quote customerId fs e).
Proof.
  unfold entry_quote.
  destruct (fs !! _); [|constructor].
  destruct (JSON_parse _) as [r|m]; [|constructor].
  destruct (get_prop r "customer_id") as [cid|] eqn:Hcid; [|constructor].
  destruct (loose_eq_string cid customerId) eqn:Heq; [|constructor].
  constructor; [|constructor].
  destruct r as [| | b | n | s | xs | kvs]; simpl in Hcid;
    try discriminate Hcid;
    try (injection Hcid as <-; discriminate Heq).
  exists kvs. split; [reflexivity|].
  unfold prop. simpl. injection Hcid as ->. exact Heq.
Qed.

Lemma scanned_customer customerId token fs entries : forall n,
  Forall (fun r => exists kvs,
            r = VObj kvs
            /\ loose_eq_string (prop r "customer_id") customerId = true)
    (scanned env customerId token fs n entries).
Proof.
  induction entries as [|e rest IH]; intros n; simpl; [constructor|].
  apply Forall_app. split; [|apply IH].
  destruct (reject env _ _); [constructor|apply entry_quote_customer].
Qed.

Lemma localized_customer r kvs :
  r = VObj kvs ->
  prop (localized r) "customer_id" = prop r "customer_id".
Proof.
  intros ->. unfold localized, prop. simpl.
  rewrite assoc_set_key_ne by discriminate. reflexivity.
Qed.

(** X9.  Whatever the store holds and whatever the transport does,
    every record [loadCustomerQuotes] resolves to is an object whose
    [customer_id] equals (by [==]) the customer identifier asked for:
    no record of another customer is ever returned. *)
Theorem loadCustomerQuotes_only_customer (customerId : string) (w : World) :
  exists l,
    (loadCustomerQuotes env customerId w).1 = Ok l
    /\ Forall (fun r => exists kvs,
                 r = VObj kvs
                 /\ loose_eq_string (prop r "customer_id") customerId = true)
         l.
Proof.
  rewrite loadCustomerQuotes_spec. eexists. split; [reflexivity|].
  unfold customer_quotes.
  destruct (getValidToken env w) as [[token|m] w0]; [|constructor].
  destruct (reject env _ _); [constructor|].
  apply List.Forall_map.
  rewrite sorted_by_date_perm.
  eapply List.Forall_impl; [|apply scanned_customer].
  intros r (kvs & -> & Hcid). eexists. split; [reflexivity|].
  rewrite (localized_customer _ kvs eq_refl). exact Hcid.
Qed.

End ListingOrder.

(** ** A saved quote in the listing *)



Section SavedListed.
Context `{Builtins} (env : Env).




End SavedListed.


(** ** The two files of a quote *)



Section QuoteFiles.
Context `{Builtins} (env : Env).




End QuoteFiles.



(** ** Failures half way *)

Section Partial.
Context `{Builtins} (env : Env).


(** X14.  [saveQuote] is not atomic either.  When the document has
    been uploaded and the upload of the metadata is then rejected, the
    call throws with the message of that rejection, and the store holds
    the new document but no new metadata: all it has gained or changed
    is the document. *)
Theorem saveQuote_partial
    (q isUpdate token : value) (w w0 : World) (fileName html msg : string) :
  let filePath := "/dtf-quotes/" +:+ fileName in
  let n := List.length (trace w0) in
  getValidToken env w = (Ok token, w0) ->
  generateFileName q = Ok fileName ->
  generateQuoteHtml q (clock w0) = Ok html ->
  reject env n (PostUpload filePath html token) = None ->
  (forall content,
     reject env (S n) (PostUpload (metadata_path (prop q "id")) content token)
     = Some msg) ->
  exists w',
    saveQuote env q isUpdate w
    = (Throw ("Failed to save quote: " +:+ msg), w')
    /\ files w'
       = <[path_lower filePath :=
             {| file_display := filePath; file_content := html |}]> (files w).
Proof.
  intros filePath n Htok Hgen Hhtml Hrej1 Hrej2.
  pose proof (getValidToken_files env w) as Hf0.
  rewrite Htok in Hf0. simpl in Hf0.
  pose proof (generateFileName_ok_props _ _ Hgen) as Hprops.
  eexists. split.
  - unfold saveQuote, try_catch, bind at 1. rewrite Htok.
    unfold bind at 1, lift at 1. rewrite Hgen.
    unfold bind at 1, Date_now at 1, bind at 1, lift at 1. rewrite Hhtml.
    unfold bind at 1. fold filePath.
    rewrite (uploadFile_accepted env filePath html token w0 Hrej1).
    unfold bind, lift, Date_now. rewrite !Hprops.
    unfold uploadFile, bind, axios_post. cbn [trace clock].
    rewrite List.length_app, Nat.add_1_r. fold n. rewrite Hrej2.
    reflexivity.
  - simpl. rewrite Hf0. reflexivity.
Qed.

(** A quote whose [quote_name] is not a string cannot be saved: the
    call throws before anything is uploaded. *)
Lemma saveQuote_unnamed (q isUpdate : value) (w : World) :
  (forall name, prop q "quote_name" <> VStr name) ->
  exists msg w' ext,
    saveQuote env q isUpdate w
    = (Throw ("Failed to save quote: " +:+ msg), w')
    /\ files w' = files w
    /\ trace w' = trace w ++ ext
    /\ Forall (fun c => is_token_post c = true) ext.
Proof.
  intros Hname.
  pose proof (getValidToken_files env w) as Hf0.
  destruct (getValidToken_trace env w) as (ext & Htrace & Hext).
  assert (Hgen : exists m, generateFileName q = Throw m).
  { unfold generateFileName.
    destruct (get_prop q "quote_name") as [v|m] eqn:Hv; [|eauto].
    destruct v; eauto.
    exfalso. apply (Hname s). unfold prop. rewrite Hv. reflexivity. }
  destruct Hgen as [m Hgen].
  unfold saveQuote. run.
  destruct (getValidToken env w) as [[tok|m0] w0]; simpl in *.
  - rewrite Hgen. simpl. exists m, w0, ext. repeat split; assumption.
  - exists m0, w0, ext. repeat split; assumption.
Qed.

End Partial.

(** ** File names *)

Lemma sanitize_underscore : map_string sanitize_char "_" = "_".
Proof. reflexivity. Qed.

(** X15.  The file name of the document does not keep the name and
    the identifier apart: the quote named [name_a] with identifier [b]
    and the quote named [name] with identifier [a_b] (where [a] is made
    of letters, digits and underscores) get the same file name, although
    their identifiers, and so their metadata files, differ. *)
Theorem generateFileName_collision (q1 q2 : value) (name a b : string) :
  map_string sanitize_char a = a ->
  prop q1 "quote_name" = VStr (name +:+ "_" +:+ a) ->
  prop q1 "id" = VStr b ->
  prop q2 "quote_name" = VStr name ->
  prop q2 "id" = VStr (a +:+ "_" +:+ b) ->
  (exists fileName,
     generateFileName q1 = Ok fileName /\ generateFileName q2 = Ok fileName)
  /\ prop q1 "id" <> prop q2 "id"
  /\ metadata_path (prop q1 "id") <> metadata_path (prop q2 "id").
Proof.
  intros Ha Hn1 Hi1 Hn2 Hi2.
  assert (Hr1 : readable q1 = true)
    by (destruct q1; try reflexivity; discriminate Hn1).
  assert (Hr2 : readable q2 = true)
    by (destruct q2; try reflexivity; discriminate Hn2).
  assert (Hlen : String.length b <> String.length (a +:+ "_" +:+ b)).
  { rewrite !ReferenceCodec.length_append. simpl. lia. }
  split; [|split].
  - unfold generateFileName.
    rewrite !(get_prop_readable _ _ Hr1), !(get_prop_readable _ _ Hr2).
    rewrite Hn1, Hi1, Hn2, Hi2. simpl ToString.
    eexists. split; [reflexivity|]. f_equal.
    rewrite !map_string_app, sanitize_underscore, Ha.
    rewrite !ReferenceCodec.append_assoc. reflexivity.
  - rewrite Hi1, Hi2. intros [= E]. apply Hlen. rewrite <- E. reflexivity.
  - rewrite Hi1, Hi2. unfold metadata_path. simpl ToString.
    intros E. apply (f_equal String.length) in E.
    rewrite !ReferenceCodec.length_append in E. simpl in E. lia.
Qed.

Lemma generateFileName_collision_witness :
  let q1 := VObj [("id", VStr "7"); ("quote_name", VStr "spring_2024")] in
  let q2 := VObj [("id", VStr "2024_7"); ("quote_name", VStr "spring")] in
  (exists fileName,
     generateFileName q1 = Ok fileName /\ generateFileName q2 = Ok fileName)
  /\ prop q1 "id" <> prop q2 "id"
  /\ metadata_path (prop q1 "id") <> metadata_path (prop q2 "id").
Proof.
  apply (generateFileName_collision
           (VObj [("id", VStr "7"); ("quote_name", VStr "spring_2024")])
           (VObj [("id", VStr "2024_7"); ("quote_name", VStr "spring")])
           "spring" "2024" "7").
  - reflexivity.
  - reflexivity.
  - reflexivity.
  - reflexivity.
  - reflexivity.
Defined.


Lemma saveQuote_partial_witness :
  exists w',
    saveQuote Scenario.metadata_down Scenario.order1 (VBool false)
      (Scenario.world_of Scenario.cold ∅)
    = (Throw ("Failed to save quote: "
              +:+ "Request failed with status code 500"), w')
    /\ files w'
       = <[path_lower "/dtf-quotes/Order__1_q1.html" :=
             {| file_display := "/dtf-quotes/Order__1_q1.html";
                file_content :=
                  quote_template Scenario.order1 (VObj []) None
                    (Scenario.noon + 5) |}]> ∅.
Proof.
  apply (saveQuote_partial Scenario.metadata_down Scenario.order1
           (VBool false) (VStr "token-1")
           (Scenario.world_of Scenario.cold ∅)
           (getValidToken Scenario.metadata_down
              (Scenario.world_of Scenario.cold ∅)).2
           "Order__1_q1.html"
           (quote_template Scenario.order1 (VObj []) None (Scenario.noon + 5))
           "Request failed with status code 500").
  - vm_compute. reflexivity.
  - reflexivity.
  - reflexivity.
  - reflexivity.
  - intros content. reflexivity.
Defined.

(** ** Shared links *)

Lemma prefix_app a b : String.prefix a (a +:+ b) = true.
Proof.
  apply String.prefix_correct. apply substring_prefix_app.
Qed.

Lemma index_after_base (base rest : string) :
  no_query base = true ->
  String.index 0 "?dl=0" (base +:+ "?dl=0" +:+ rest)
  = Some (String.length base).
Proof.
  intros Hbase. induction base as [|c base IH].
  - rewrite ReferenceCodec.append_empty_l.
    pose proof (prefix_app "?dl=0" rest) as Hp.
    change ("?dl=0" +:+ rest)
      with (String "?" (String "d" (String "l" (String "=" (String "0" rest)))))
      in *.
    cbn [String.index]. rewrite Hp. reflexivity.
  - simpl in Hbase. apply andb_true_iff in Hbase as [Hc Hbase].
    apply negb_true_iff in Hc.
    rewrite ReferenceCodec.append_cons. cbn [String.index String.prefix].
    destruct (ascii_dec "?" c) as [<-|_]; [discriminate Hc|].
    rewrite (IH Hbase). reflexivity.
Qed.

(** [url.replace('?dl=0', '?raw=1')] on a link that ends its path with
    that query. *)
Lemma replace_first_dl (base rest : string) :
  no_query base = true ->
  replace_first "?dl=0" "?raw=1" (base +:+ "?dl=0" +:+ rest)
  = base +:+ "?raw=1" +:+ rest.
Proof.
  intros Hbase. unfold replace_first. rewrite (index_after_base _ _ Hbase).
  rewrite substring_prefix_app. f_equal. f_equal.
  rewrite <- ReferenceCodec.append_assoc.
  replace (String.length base + String.length "?dl=0")%nat
    with (String.length (base +:+ "?dl=0"))
    by (rewrite ReferenceCodec.length_append; reflexivity).
  replace (String.length ((base +:+ "?dl=0") +:+ rest)
           - String.length (base +:+ "?dl=0"))%nat
    with (String.length rest)
    by (rewrite (ReferenceCodec.length_append (base +:+ "?dl=0")); lia).
  apply substring_suffix_app.
Qed.

Section SharedLinks.
Context `{Builtins} (env : Env).

(** X16.  When the sharing endpoint creates a link and answers with a
    [url] that carries the query [?dl=0], [createSharedLink] resolves,
    after that one request, to the same link with [?raw=1] in its
    place. *)
Theorem createSharedLink_raw_link
    (path : string) (token : value) (w : World) (base rest : string) :
  let c := PostCreateLink path token in
  let n := List.length (trace w) in
  reject env n c = None ->
  get_prop (reply env n c) "url" = Ok (VStr (base +:+ "?dl=0" +:+ rest)) ->
  no_query base = true ->
  createSharedLink env path token w
  = (Ok (base +:+ "?raw=1" +:+ rest), posted env w c).
Proof.
  intros c n Hrej Hurl Hbase. subst c n.
  unfold createSharedLink, posted. run. rewrite Hrej. simpl.
  rewrite Hurl. simpl. rewrite (replace_first_dl _ _ Hbase). reflexivity.
Qed.

(** X17.  When the request to create a link is rejected (as it is when
    a link exists already), [createSharedLink] asks for the existing
    links.  If that request is answered with a non-empty list whose
    first entry has a string [url], the call resolves to that link with
    its first [?dl=0] replaced by [?raw=1].  If it is rejected, or is
    answered with no list or an empty one, the call throws the message
    of the rejected creation, not that of the listing. *)
Theorem createSharedLink_fallback
    (path : string) (token : value) (w : World) (msg : string) :
  let c := PostCreateLink path token in
  let c' := PostListLinks path token in
  let n := List.length (trace w) in
  let w' := posted env (posted env w c) c' in
  reject env n c = Some msg ->
  (forall first more url,
     reject env (S n) c' = None ->
     get_prop (reply env (S n) c') "links" = Ok (VArr (first :: more)) ->
     get_prop first "url" = Ok (VStr url) ->
     createSharedLink env path token w
     = (Ok (replace_first "?dl=0" "?raw=1" url), w'))
  /\ (forall msg',
        reject env (S n) c' = Some msg' ->
        createSharedLink env path token w = (Throw msg, w'))
  /\ (forall links,
        reject env (S n) c' = None ->
        get_prop (reply env (S n) c') "links" = Ok links ->
        truthy links = false \/ links = VArr [] ->
        createSharedLink env path token w = (Throw msg, w')).
Proof.
  intros c c' n w' Hrej. subst c c' n w'.
  unfold createSharedLink, posted. run. rewrite Hrej. simpl.
  rewrite List.length_app, Nat.add_1_r.
  split; [|split].
  - intros first more url Hrej' Hlinks Hurl.
    rewrite Hrej'. simpl. rewrite Hlinks. simpl.
    unfold gt0. simpl.
    destruct (Z.ltb_spec 0 (Z.of_nat (S (List.length more)))) as [_|Hle];
      [|lia].
    simpl. rewrite Hurl. reflexivity.
  - intros msg' Hrej'. rewrite Hrej'. reflexivity.
  - intros links Hrej' Hlinks Hnone.
    rewrite Hrej'. simpl. rewrite Hlinks. simpl.
    destruct Hnone as [Hfalsy | ->].
    + rewrite Hfalsy. reflexivity.
    + reflexivity.
Qed.

End SharedLinks.

Lemma createSharedLink_raw_link_witness :
  createSharedLink Scenario.quiet "/dtf-quotes/Order__1_q1.html"
    (VStr "token-1") (Scenario.world_of Scenario.warm ∅)
  = (Ok ("https://www.dropbox.com/s/abc/quote.html" +:+ "?raw=1" +:+ ""),
     posted Scenario.quiet (Scenario.world_of Scenario.warm ∅)
       (PostCreateLink "/dtf-quotes/Order__1_q1.html" (VStr "token-1"))).
Proof.
  apply (createSharedLink_raw_link Scenario.quiet
           "/dtf-quotes/Order__1_q1.html" (VStr "token-1")
           (Scenario.world_of Scenario.warm ∅)
           "https://www.dropbox.com/s/abc/quote.html" "").
  - reflexivity.
  - reflexivity.
  - reflexivity.
Defined.

Lemma createSharedLink_fallback_witness :
  let path := "/dtf-quotes/Order__1_q1.html" in
  let token := VStr "token-1" in
  let w := Scenario.world_of Scenario.warm ∅ in
  let w' := posted Scenario.link_exists
              (posted Scenario.link_exists w (PostCreateLink path token))
              (PostListLinks path token) in
  createSharedLink Scenario.link_exists path token w
  = (Ok (replace_first "?dl=0" "?raw=1"
           "https://www.dropbox.com/s/abc/q.html?dl=0"), w').
Proof.
  apply (proj1 (createSharedLink_fallback Scenario.link_exists
                  "/dtf-quotes/Order__1_q1.html" (VStr "token-1")
                  (Scenario.world_of Scenario.warm ∅)
                  "Request failed with status code 409" eq_refl)
           (VObj [("url", VStr "https://www.dropbox.com/s/abc/q.html?dl=0")])
           []).
  - reflexivity.
  - reflexivity.
  - reflexivity.
Defined.

(** ** The routes *)

Section RouteFacts.
Context `{Builtins} (env : Env).

(** X18.  The save route validates the identifier only.  A body with
    no [quoteData], or whose [quoteData] has no identifier, is answered
    with status 400 before anything is requested.  A [quoteData] with an
    identifier whose [quote_name] is not a string passes that check and
    is answered with status 500, the failure of [saveQuote]; nothing has
    been uploaded. *)
Theorem post_save_quote_validation (req : Request) (w : World) :
  readable (req_body req) = true ->
  let quoteData := prop (req_body req) "quoteData" in
  (truthy quoteData = false \/ truthy (prop quoteData "id") = false ->
   post_save_quote env req w
   = (Ok {| res_status := 400;
            res_body :=
              error_body "Invalid quote data. Missing required fields." |},
      w))
  /\ (truthy quoteData = true ->
      truthy (prop quoteData "id") = true ->
      (forall name, prop quoteData "quote_name" <> VStr name) ->
      exists msg w',
        post_save_quote env req w
        = (Ok {| res_status := 500;
                 res_body :=
                   failure_body "Failed to save quote"
                     ("Failed to save quote: " +:+ msg) |}, w')
        /\ files w' = files w).
Proof.
  intros Hbody quoteData.
  assert (Hd : forall k source,
             destructure (req_body req) k source = Ok (prop (req_body req) k)).
  { intros k source. unfold destructure.
    rewrite <- (get_prop_readable _ k Hbody).
    destruct (req_body req); try discriminate Hbody; reflexivity. }
  split.
  - intros Hinvalid. unfold post_save_quote, respond. run.
    rewrite !Hd. simpl. fold quoteData.
    destruct (truthy quoteData) eqn:Hq.
    + destruct Hinvalid as [Hinvalid|Hid]; [discriminate Hinvalid|].
      assert (Hr : readable quoteData = true)
        by (destruct quoteData; try discriminate Hq; reflexivity).
      rewrite (get_prop_readable _ _ Hr). simpl. rewrite Hid. reflexivity.
    + reflexivity.
  - intros Hq Hid Hname.
    destruct (saveQuote_unnamed env quoteData
                (default_arg (VBool false) (prop (req_body req) "isUpdate"))
                w Hname)
      as (msg & w' & ext & Hsave & Hfiles & _).
    exists msg, w'. split; [|exact Hfiles].
    assert (Hr : readable quoteData = true)
      by (destruct quoteData; try discriminate Hq; reflexivity).
    unfold post_save_quote, respond. run.
    rewrite !Hd. simpl. fold quoteData. rewrite Hq.
    rewrite (get_prop_readable _ _ Hr). simpl. rewrite Hid. simpl.
    rewrite Hsave. reflexivity.
Qed.


(** X20.  The listing route never answers with a failure: for every
    customer identifier, every store and every behaviour of the
    transport it answers with status 200 and [success: true], the data
    being what [loadCustomerQuotes] resolved to, which is the empty list
    when the token cannot be obtained. *)
Theorem get_customer_quotes_always_200
    (req : Request) (customerId : string) (w : World) :
  param "customerId" (req_params req) = Some customerId ->
  customerId <> "" ->
  exists l,
    (loadCustomerQuotes env customerId w).1 = Ok l
    /\ (get_customer_quotes env req w).1
       = Ok {| res_status := 200; res_body := success_body (VArr l) |}
    /\ (forall msg w0, getValidToken env w = (Throw msg, w0) -> l = []).
Proof.
  intros Hparam Hne.
  assert (Hfalsy : falsy_str (Some customerId) = false)
    by (simpl; destruct (String.eqb_spec customerId ""); congruence).
  pose proof (loadCustomerQuotes_spec env customerId w) as Hspec.
  exists (customer_quotes env customerId w).
  split; [exact Hspec|]. split.
  - unfold get_customer_quotes, respond. run.
    rewrite Hparam, Hfalsy. simpl.
    destruct (loadCustomerQuotes env customerId w) as [[l|m] w1];
      simpl in Hspec; [|discriminate Hspec].
    injection Hspec as ->. reflexivity.
  - intros msg w0 Htok. unfold customer_quotes. rewrite Htok. reflexivity.
Qed.

(** X21.  The logo route never answers with status 500 either: it
    answers 200 with the record when [loadCustomerLogo] resolves to a
    truthy one, and 404 otherwise, which is also its answer when the
    token cannot be obtained. *)
Theorem get_logo_never_500
    (req : Request) (customerId : string) (w : World) :
  param "customerId" (req_params req) = Some customerId ->
  customerId <> "" ->
  exists logoData,
    (loadCustomerLogo env customerId w).1 = Ok logoData
    /\ (get_logo env req w).1
       = Ok (if truthy logoData
             then {| res_status := 200; res_body := success_body logoData |}
             else {| res_status := 404;
                     res_body := error_body "Logo not found" |})
    /\ (forall msg w0,
          getValidToken env w = (Throw msg, w0) -> logoData = VNull).
Proof.
  intros Hparam Hne.
  assert (Hfalsy : falsy_str (Some customerId) = false)
    by (simpl; destruct (String.eqb_spec customerId ""); congruence).
  pose proof (loadCustomerLogo_spec env customerId w) as Hspec.
  assert (Hok : exists logoData w1,
             loadCustomerLogo env customerId w = (Ok logoData, w1)
             /\ (forall msg w0,
                   getValidToken env w = (Throw msg, w0) -> logoData = VNull)).
  { rewrite Hspec. unfold customer_logo.
    destruct (getValidToken env w) as [[token|m] w0].
    - destruct (reject env _ _);
        [eexists; eexists; split; [reflexivity|]; intros ? ? [=]|].
      destruct (files w0 !! _);
        [|eexists; eexists; split; [reflexivity|]; intros ? ? [=]].
      destruct (JSON_parse _);
        eexists; eexists; (split; [reflexivity|]); intros ? ? [=].
    - eexists. eexists. split; [reflexivity|]. intros; reflexivity. }
  destruct Hok as (logoData & w1 & Hload & Hnull).
  exists logoData. split; [rewrite Hload; reflexivity|]. split; [|exact Hnull].
  unfold get_logo, respond. run. rewrite Hparam, Hfalsy. simpl.
  rewrite Hload. simpl. destruct (truthy logoData); reflexivity.
Qed.

(** X22.  The delete route passes the [customerId] of the query on to
    [deleteQuote], which ignores it: two requests for the same quote get
    the same answer and leave the same world, whatever their query
    strings and bodies.  The route compares the caller with the owner of
    the quote nowhere. *)
Theorem delete_quote_any_caller (req req' : Request) (w : World) :
  req_params req = req_params req' ->
  delete_quote env req w = delete_quote env req' w.
Proof.
  intros Hparams. unfold delete_quote. rewrite Hparams. reflexivity.
Qed.

(** X23.  The token check at start-up and the hourly job never throw.
    On a newly constructed service, which holds no token, the check
    issues exactly one request to the token endpoint when the three
    credentials are configured and none when one is missing, and leaves
    the remote files alone. *)
Theorem scheduled_refresh_startup
    (key secret refresh : option string) (w : World) :
  svc w = new_DropboxService key secret refresh ->
  exists w',
    scheduled_refresh env w = (Ok tt, w')
    /\ files w' = files w
    /\ trace w'
       = (if configured (svc w)
          then trace w ++ [token_request (svc w)]
          else trace w).
Proof.
  intros Hsvc.
  assert (Hstale : needs_refresh (svc w) (clock w) = true)
    by (unfold needs_refresh; rewrite Hsvc; reflexivity).
  pose proof (refreshAccessToken_trace env w) as [Htrace Hfiles].
  unfold scheduled_refresh, refreshTokenIfNeeded. run. rewrite Hstale.
  destruct (refreshAccessToken env w) as [[tok|m] w1]; simpl in *;
    eexists; (split; [reflexivity|]); split; assumption.
Qed.

End RouteFacts.

Lemma post_save_quote_validation_witness :
  let w := Scenario.world_of Scenario.cold ∅ in
  post_save_quote Scenario.quiet
    (Scenario.save_request (VObj [("quote_name", VStr "No id")])) w
  = (Ok {| res_status := 400;
           res_body :=
             error_body "Invalid quote data. Missing required fields." |}, w)
  /\ exists msg w',
       post_save_quote Scenario.quiet
         (Scenario.save_request Scenario.nameless) w
       = (Ok {| res_status := 500;
                res_body :=
                  failure_body "Failed to save quote"
                    ("Failed to save quote: " +:+ msg) |}, w')
       /\ files w' = files w.
Proof.
  split.
  - apply (proj1 (post_save_quote_validation Scenario.quiet
                    (Scenario.save_request
                       (VObj [("quote_name", VStr "No id")]))
                    (Scenario.world_of Scenario.cold ∅) eq_refl)).
    right. reflexivity.
  - apply (proj2 (post_save_quote_validation Scenario.quiet
                    (Scenario.save_request Scenario.nameless)
                    (Scenario.world_of Scenario.cold ∅) eq_refl)).
    + reflexivity.
    + reflexivity.
    + intros name. discriminate.
Defined.


Lemma get_customer_quotes_always_200_witness :
  exists l,
    (loadCustomerQuotes Scenario.offline "A" Scenario.three_saved).1 = Ok l
    /\ (get_customer_quotes Scenario.offline (Scenario.customer_request "A")
          Scenario.three_saved).1
       = Ok {| res_status := 200; res_body := success_body (VArr l) |}
    /\ (forall msg w0,
          getValidToken Scenario.offline Scenario.three_saved
          = (Throw msg, w0) -> l = []).
Proof.
  apply (get_customer_quotes_always_200 Scenario.offline
           (Scenario.customer_request "A") "A" Scenario.three_saved).
  - reflexivity.
  - discriminate.
Defined.

Lemma get_logo_never_500_witness :
  exists logoData,
    (loadCustomerLogo Scenario.offline "c1"
       (Scenario.world_of Scenario.cold ∅)).1 = Ok logoData
    /\ (get_logo Scenario.offline (Scenario.customer_request "c1")
          (Scenario.world_of Scenario.cold ∅)).1
       = Ok (if truthy logoData
             then {| res_status := 200; res_body := success_body logoData |}
             else {| res_status := 404;
                     res_body := error_body "Logo not found" |})
    /\ (forall msg w0,
          getValidToken Scenario.offline (Scenario.world_of Scenario.cold ∅)
          = (Throw msg, w0) -> logoData = VNull).
Proof.
  apply (get_logo_never_500 Scenario.offline
           (Scenario.customer_request "c1") "c1"
           (Scenario.world_of Scenario.cold ∅)).
  - reflexivity.
  - discriminate.
Defined.

Lemma delete_quote_any_caller_witness :
  delete_quote Scenario.quiet
    (Scenario.quote_request "a1" [("customerId", VStr "A")])
    Scenario.three_saved
  = delete_quote Scenario.quiet
      (Scenario.quote_request "a1" [("customerId", VStr "B")])
      Scenario.three_saved.
Proof.
  apply (delete_quote_any_caller Scenario.quiet
           (Scenario.quote_request "a1" [("customerId", VStr "A")])
           (Scenario.quote_request "a1" [("customerId", VStr "B")])
           Scenario.three_saved).
  reflexivity.
Defined.

Lemma scheduled_refresh_startup_witness :
  exists w',
    scheduled_refresh Scenario.offline
      (Scenario.world_of Scenario.cold ∅) = (Ok tt, w')
    /\ files w' = ∅
    /\ trace w'
       = (if configured Scenario.cold
          then [] ++ [token_request Scenario.cold]
          else []).
Proof.
  apply (scheduled_refresh_startup Scenario.offline
           (Some "app-key") (Some "app-secret") (Some "refresh-token")
           (Scenario.world_of Scenario.cold ∅)).
  reflexivity.
Defined.

(** ** Rendering the locations *)

Section Rendering.
Context `{Builtins}.




End Rendering.


(** ** An expiry that is not a date *)

Section InvalidExpiry.
Context `{Builtins} (env : Env).

(** X25.  When the token endpoint answers with a non-empty
    [access_token] and an [expires_in] that is not a number, the refresh
    throws at the line that logs the expiry, after the token and an
    Invalid Date have been stored.  From then on the freshness check
    never asks for a refresh again: every later call, at whatever time,
    hands out that token without a request. *)
Theorem refreshAccessToken_invalid_expiry_sticks
    (w : World) (tok ex : value) :
  let c := token_request (svc w) in
  let n := List.length (trace w) in
  configured (svc w) = true ->
  reject env n c = None ->
  get_prop (reply env n c) "access_token" = Ok tok ->
  get_prop (reply env n c) "expires_in" = Ok ex ->
  ToNumber ex = None ->
  truthy tok = true ->
  exists w1,
    refreshAccessToken env w
    = (Throw "Failed to refresh token: Invalid time value", w1)
    /\ accessToken (svc w1) = tok
    /\ tokenExpiresAt (svc w1) = Some None
    /\ (forall w2,
          svc w2 = svc w1 ->
          getValidToken env w2 = (Ok tok, w2)).
Proof.
  intros c n Hconf Hrej Htok Hex Hnan Htruthy. subst c n.
  unfold configured in Hconf. apply negb_true_iff in Hconf.
  eexists. split; [|split; [|split]].
  - unfold refreshAccessToken. run. rewrite Hconf, Hrej. simpl.
    rewrite Htok, Hex. simpl. rewrite Hnan. reflexivity.
  - reflexivity.
  - reflexivity.
  - intros w2 Hsvc.
    rewrite (getValidToken_fresh env w2).
    + rewrite Hsvc. reflexivity.
    + rewrite Hsvc. unfold needs_refresh. simpl. rewrite Htruthy.
      reflexivity.
Qed.

End InvalidExpiry.

Lemma refreshAccessToken_invalid_expiry_sticks_witness :
  exists w1,
    refreshAccessToken Scenario.malformed (Scenario.world_of Scenario.warm ∅)
    = (Throw "Failed to refresh token: Invalid time value", w1)
    /\ accessToken (svc w1) = VStr "token-2"
    /\ tokenExpiresAt (svc w1) = Some None
    /\ (forall w2,
          svc w2 = svc w1 ->
          getValidToken Scenario.malformed w2 = (Ok (VStr "token-2"), w2)).
Proof.
  apply (refreshAccessToken_invalid_expiry_sticks Scenario.malformed
           (Scenario.world_of Scenario.warm ∅) (VStr "token-2") VUndef).
  - reflexivity.
  - reflexivity.
  - reflexivity.
  - reflexivity.
  - reflexivity.
  - reflexivity.
Defined.

(** ** The logo routes *)

Section LogoRoutes.
Context `{Builtins} (env : Env).




End LogoRoutes.


